(** * Verification of init/init_ddk.py: the marker-section updater
    [KleafProjectSetter._update_file], the download URL helper [_get_url]
    and [_download].

    Python [str] values are modelled as Rocq [string]s whose characters are
    code points 0..255; [quote_cp] takes any Python string as its list of
    code points. *)

From Stdlib Require Import Strings.String Strings.Ascii Lists.List Bool Arith ZArith Lia.
Import ListNotations.
Open Scope string_scope.

(** ** Characters and text *)

Definition nl : ascii := "010"%char.
Definition cr : ascii := "013"%char.
Definition nl_s : string := String nl EmptyString.

(** Reading a file opened with [open(path, "r", encoding="utf-8")]: text mode
    with universal newlines, so ["\r\n"] and a lone ["\r"] both read as ["\n"]. *)
Fixpoint decode_newlines (s : string) : string :=
  match s with
  | EmptyString => EmptyString
  | String c rest =>
      if Ascii.eqb c cr then
        match rest with
        | String c' rest' =>
            if Ascii.eqb c' nl then String nl (decode_newlines rest')
            else String nl (decode_newlines rest)
        | EmptyString => String nl EmptyString
        end
      else String c (decode_newlines rest)
  end.

(** [for line in input_file]: the text is cut after every ["\n"]; each line
    keeps its ["\n"]; a last line without one is yielded when non-empty. *)
Fixpoint split_lines (s : string) : list string :=
  match s with
  | EmptyString => []
  | String c rest =>
      let ls := split_lines rest in
      if Ascii.eqb c nl then String c EmptyString :: ls
      else match ls with
           | [] => [String c EmptyString]
           | l :: ls' => String c l :: ls'
           end
  end.

(** Python's [sub in s]. *)
Fixpoint contains (sub s : string) : bool :=
  prefix sub s ||
  match s with
  | EmptyString => false
  | String _ rest => contains sub rest
  end.

(** ** The marker constants *)

Definition _FILE_MARKER_BEGIN : string :=
  "### GENERATED SECTION - DO NOT MODIFY - BEGIN ###" ++ nl_s.
Definition _FILE_MARKER_END : string :=
  "### GENERATED SECTION - DO NOT MODIFY - END ###" ++ nl_s.

(** ** [_update_file]

    The loop over the input lines, with the three flags of the source and the
    sequence of [output_file.write] calls made so far. *)
Record loop_state := mk_state {
  add_content : bool;
  skip_line : bool;
  update_written : bool;
  written : list string
}.

Definition init_state : loop_state := mk_state false false false [].

(** One iteration of [for line in input_file:]. *)
Definition loop_step (update : string) (st : loop_state) (line : string) : loop_state :=
  (* if add_content: write the begin marker and the update *)
  let '(add, wr, out) :=
    if add_content st
    then (false, true, app (written st) [_FILE_MARKER_BEGIN; update ++ nl_s])
    else (false, update_written st, written st) in
  (* if _FILE_MARKER_END in line: skip_line = False *)
  let skip := if contains _FILE_MARKER_END line then false else skip_line st in
  (* if _FILE_MARKER_BEGIN in line: skip_line = True; add_content = True *)
  let '(skip, add) :=
    if contains _FILE_MARKER_BEGIN line then (true, true) else (skip, add) in
  (* if not skip_line: output_file.write(line) *)
  let out := if skip then out else app out [line] in
  mk_state add skip wr out.

(** The writes made to the temporary file, for the given input lines. *)
Definition update_writes (lines : list string) (update : string) : list string :=
  let st := fold_left (loop_step update) lines init_state in
  if update_written st then written st
  else app (written st) [_FILE_MARKER_BEGIN; update ++ nl_s; _FILE_MARKER_END].

(** The text read from [path]: the file's content decoded in text mode, or
    nothing when the path does not exist (it is then opened with ["a+"], which
    creates it empty). *)
Definition input_text (existing : option string) : string :=
  match existing with
  | Some bytes => decode_newlines bytes
  | None => EmptyString
  end.

(** The content of a file written by a sequence of [write] calls. *)
Fixpoint join (chunks : list string) : string :=
  match chunks with
  | [] => EmptyString
  | c :: cs => c ++ join cs
  end.

(** The content [_update_file(path, update)] leaves at [path], given the
    content of [path] before the call ([None] when it does not exist). *)
Definition _update_file (existing : option string) (update : string) : string :=
  join (update_writes (split_lines (input_text existing)) update).

(** ** Effects of [_update_file] on the filesystem

    A filesystem maps paths to contents. [update_file_trace] lists the states
    the filesystem goes through during one call: an interrupted run stops in
    one of them. *)
Definition fs := string -> option string.

Definition fs_set (m : fs) (p : string) (v : option string) : fs :=
  fun q => if String.eqb q p then v else m q.

(** [output_file.write(chunk)] for each chunk, the temporary file holding
    [acc] before the first one; one state per write. *)
Fixpoint write_chunks (m : fs) (tmp acc : string) (chunks : list string) : list fs :=
  match chunks with
  | [] => []
  | c :: cs =>
      let m' := fs_set m tmp (Some (acc ++ c)) in
      m' :: write_chunks m' tmp (acc ++ c) cs
  end.

(** [shutil.move(tmp, path)]: a rename when both are on one filesystem;
    otherwise [copy2] (which opens [path] with ["wb"], truncating it, then
    writes the content) followed by removing [tmp]. *)
Definition move_states (m : fs) (tmp path : string) (same_device : bool) : list fs :=
  let content := m tmp in
  if same_device then [fs_set (fs_set m path content) tmp None]
  else
    let m1 := fs_set m path (Some "") in
    let m2 := fs_set m1 path content in
    [m1; m2; fs_set m2 tmp None].

Definition last_state (m : fs) (ms : list fs) : fs := last ms m.

(** The states of one call [_update_file(path, update)], starting from [m],
    [tmp] being the name [tempfile.NamedTemporaryFile] picks. *)
Definition update_file_trace (m : fs) (path tmp : string) (same_device : bool)
    (update : string) : list fs :=
  let existing := m path in
  (* open(path, "a+") creates a missing file *)
  let m1 := match existing with Some _ => m | None => fs_set m path (Some "") end in
  (* NamedTemporaryFile(mode="w", delete=False) *)
  let m2 := fs_set m1 tmp (Some "") in
  let ws := write_chunks m2 tmp EmptyString (update_writes (split_lines (input_text existing)) update) in
  let m3 := last_state m2 ws in
  m :: m1 :: m2 :: ws ++ move_states m3 tmp path same_device.

(** ** [_get_url] and [_download] *)

Inductive pyexn := KeyError (key : string) | IndexError | TypeError | ValueError
  | AttributeError | UnicodeEncodeError.

Inductive result (A : Type) := Ok (a : A) | Err (e : pyexn).
Arguments Ok {A} a.
Arguments Err {A} e.

Inductive pyval := VNone | VStr (s : string).

(** A format string as [str.format] parses it: literal runs (with ["{{"] and
    ["}}"] already unescaped) and replacement fields [{name:spec}] naming an
    argument. Conversions ([!r]), attribute or index access in field names
    and nested fields inside a spec are not modelled. The empty string parses
    to [[]]; any other string parses to a non-empty list. *)
Inductive fmt_piece := Lit (s : string) | Field (name : string) (spec : string).

Definition is_digit (c : ascii) : bool :=
  let n := nat_of_ascii c in Nat.leb 48 n && Nat.leb n 57.

Definition is_align (c : ascii) : bool :=
  Ascii.eqb c "<" || Ascii.eqb c ">" || Ascii.eqb c "^" || Ascii.eqb c "=".

Fixpoint take_digits (s : string) : string * string :=
  match s with
  | String c rest =>
      if is_digit c then let '(d, r) := take_digits rest in (String c d, r)
      else (EmptyString, s)
  | EmptyString => (EmptyString, EmptyString)
  end.

Fixpoint digits_value_aux (acc : nat) (d : string) : nat :=
  match d with
  | EmptyString => acc
  | String c rest => digits_value_aux (acc * 10 + (nat_of_ascii c - 48)) rest
  end.

Definition digits_value (d : string) : nat := digits_value_aux 0 d.

Fixpoint repeat_char (c : ascii) (n : nat) : string :=
  match n with 0 => EmptyString | S k => String c (repeat_char c k) end.

(** [str.__format__(v, spec)], spec grammar
    [[[fill]align][sign][z][#][0][width][grouping][.precision][type]]: for a
    string, a sign, [z], [#], a grouping option, the ['='] alignment or a type
    other than [s] raise [ValueError]; since Python 3.10 a leading ['0'] only
    sets the fill character. *)
Definition str_format (v spec : string) : result string :=
  let '(fill, align, r) :=
    match spec with
    | String f (String a rest) =>
        if is_align a then (Some f, Some a, rest)
        else if is_align f then (None, Some f, String a rest)
        else (None, None, spec)
    | String f EmptyString =>
        if is_align f then (None, Some f, EmptyString) else (None, None, spec)
    | EmptyString => (None, None, EmptyString)
    end in
  let flag c := Ascii.eqb c "+" || Ascii.eqb c "-" || Ascii.eqb c " "
                || Ascii.eqb c "z" || Ascii.eqb c "#" in
  let flagged := match r with String c _ => flag c | EmptyString => false end in
  if flagged then Err ValueError else
    let '(fill, r) :=
      match fill, r with
      | None, String "0"%char rest => (Some "0"%char, rest)
      | _, _ => (fill, r)
      end in
    let '(wd, r) := take_digits r in
    let grouping := match r with
                    | String c _ => Ascii.eqb c "," || Ascii.eqb c "_"
                    | EmptyString => false end in
    if grouping then Err ValueError else
    let prec_r :=
      match r with
      | String "."%char rest =>
          let '(pd, r') := take_digits rest in
          if String.eqb pd "" then None else Some (Some (digits_value pd), r')
      | _ => Some (None, r)
      end in
    match prec_r with
    | None => Err ValueError
    | Some (prec, r) =>
        let type_ok := String.eqb r "" || String.eqb r "s" in
        let align_ok := match align with Some a => negb (Ascii.eqb a "=") | None => true end in
        if negb (type_ok && align_ok) then Err ValueError else
        let v := match prec with Some p => substring 0 p v | None => v end in
        let f := match fill with Some f => f | None => " "%char end in
        let width := digits_value wd in
        let pad := width - String.length v in
        match align with
        | Some ">"%char => Ok (repeat_char f pad ++ v)
        | Some "^"%char => Ok (repeat_char f (pad / 2) ++ v ++ repeat_char f (pad - pad / 2))
        | _ => Ok (v ++ repeat_char f pad)
        end
    end.

(** [format(value, spec)]: [None] has only [object.__format__], which
    refuses any non-empty spec with a [TypeError]. *)
Definition format_value (v : pyval) (spec : string) : result string :=
  match v with
  | VNone => if String.eqb spec "" then Ok "None" else Err TypeError
  | VStr s => str_format s spec
  end.

Fixpoint lookup_kw (name : string) (kwargs : list (string * pyval)) : option pyval :=
  match kwargs with
  | [] => None
  | (k, v) :: rest => if String.eqb k name then Some v else lookup_kw name rest
  end.

Fixpoint all_digits (s : string) : bool :=
  match s with
  | EmptyString => true
  | String c rest => is_digit c && all_digits rest
  end.

(** [fmt.format(build_id=..., build_target=..., filename=...)], fields
    formatted from left to right; an empty or
    numeric field name asks for a positional argument, and there is none. *)
Fixpoint format (pieces : list fmt_piece) (kwargs : list (string * pyval)) : result string :=
  match pieces with
  | [] => Ok ""
  | Lit s :: ps =>
      match format ps kwargs with Ok r => Ok (s ++ r) | Err e => Err e end
  | Field name spec :: ps =>
      if all_digits name then Err IndexError else
      match lookup_kw name kwargs with
      | None => Err (KeyError name)
      | Some v =>
          match format_value v spec with
          | Err e => Err e
          | Ok s => match format ps kwargs with Ok r => Ok (s ++ r) | Err e => Err e end
          end
      end
  end.

(** [urllib.parse.quote(s, safe="")]: letters, digits and [_.-~] are kept,
    every other character is UTF-8 encoded and written as [%XX]. *)
Definition always_safe (c : ascii) : bool :=
  let n := nat_of_ascii c in
  (Nat.leb 65 n && Nat.leb n 90) || (Nat.leb 97 n && Nat.leb n 122) || is_digit c
  || Ascii.eqb c "_" || Ascii.eqb c "." || Ascii.eqb c "-" || Ascii.eqb c "~".

Definition hex_digit (n : nat) : ascii :=
  if Nat.ltb n 10 then ascii_of_nat (48 + n) else ascii_of_nat (55 + n).

Definition percent_byte (b : nat) : string :=
  String "%" (String (hex_digit (b / 16)) (String (hex_digit (b mod 16)) EmptyString)).

Definition utf8_bytes (c : ascii) : list nat :=
  let n := nat_of_ascii c in
  if Nat.ltb n 128 then [n] else [192 + n / 64; 128 + n mod 64].

Fixpoint quote (s : string) : string :=
  match s with
  | EmptyString => EmptyString
  | String c rest =>
      (if always_safe c then String c EmptyString
       else String.concat "" (map percent_byte (utf8_bytes c))) ++ quote rest
  end.

(** [urllib.parse.quote(s, safe="")] on any Python string, given as its
    list of code points: [s.encode("utf-8")] (one to four bytes per code
    point; a surrogate raises [UnicodeEncodeError]), then every byte that
    is not an ASCII letter, digit or one of [_.-~] written as ["%XX"]. The
    [quote] above is this function on strings of code points below 256
    ([quote_cp_latin1]). *)
Definition utf8_encode_cp (c : Z) : option (list Z) :=
  if (c <? 0)%Z then None
  else if (c <? 128)%Z then Some [c]
  else if (c <? 2048)%Z then Some [192 + c / 64; 128 + c mod 64]%Z
  else if (c <? 65536)%Z then
    if ((55296 <=? c) && (c <=? 57343))%Z then None
    else Some [224 + c / 4096; 128 + (c / 64) mod 64; 128 + c mod 64]%Z
  else if (c <? 1114112)%Z then
    Some [240 + c / 262144; 128 + (c / 4096) mod 64; 128 + (c / 64) mod 64;
          128 + c mod 64]%Z
  else None.

Fixpoint utf8_encode (s : list Z) : option (list Z) :=
  match s with
  | [] => Some []
  | c :: rest =>
      match utf8_encode_cp c, utf8_encode rest with
      | Some b, Some r => Some (app b r)
      | _, _ => None
      end
  end.

(** [_ALWAYS_SAFE]: ASCII letters, digits and [_.-~]. *)
Definition safe_byte (b : Z) : bool :=
  (((65 <=? b) && (b <=? 90)) || ((97 <=? b) && (b <=? 122))
   || ((48 <=? b) && (b <=? 57))
   || (b =? 95) || (b =? 46) || (b =? 45) || (b =? 126))%Z.

(** [_Quoter]: [chr(b) if b in safe else "%{:02X}".format(b)]. *)
Definition quote_byte (b : Z) : string :=
  if safe_byte b then String (ascii_of_nat (Z.to_nat b)) EmptyString
  else percent_byte (Z.to_nat b).

Definition quote_cp (s : list Z) : result string :=
  match utf8_encode s with
  | None => Err UnicodeEncodeError
  | Some bs => Ok (join (map quote_byte bs))
  end.

(** The code points of a string. *)
Definition code_of (c : ascii) : Z := Z.of_nat (nat_of_ascii c).

Definition codes (s : string) : list Z := map code_of (list_ascii_of_string s).


(** The fields of [KleafProjectSetter] that [_get_url] and [_download] read. *)
Record KleafProjectSetter := mk_setter {
  build_id : option string;
  build_target : option string;
  url_fmt : option (list fmt_piece)
}.

Definition str_truthy (o : option string) : bool :=
  match o with None | Some EmptyString => false | Some _ => true end.

Definition fmt_truthy (o : option (list fmt_piece)) : bool :=
  match o with None | Some [] => false | Some _ => true end.

Definition opt_val (o : option string) : pyval :=
  match o with None => VNone | Some s => VStr s end.

Definition _FAKE_BUILD_ID : string := "__FAKE_BUILD_NUMBER_PLACEHOLDER__".

(** [_get_url]: [Ok None] is the Python [None]; [self.url_fmt] being [None]
    makes [.format] an [AttributeError]. *)
Definition _get_url (self : KleafProjectSetter) (remote_filename : string)
    : result (option string) :=
  match url_fmt self with
  | None => Err AttributeError
  | Some fmt =>
      let filename := VStr (quote remote_filename) in
      match format fmt [("build_id", opt_val (build_id self));
                        ("build_target", opt_val (build_target self));
                        ("filename", filename)] with
      | Err e => Err e
      | Ok url =>
          match format fmt [("build_id", VStr _FAKE_BUILD_ID);
                            ("build_target", opt_val (build_target self));
                            ("filename", filename)] with
          | Err e => Err e
          | Ok url_with_fake_id =>
              if negb (str_truthy (build_id self)) && negb (String.eqb url url_with_fake_id)
              then Ok None
              else Ok (Some url)
          end
      end
  end.

(** The keyword arguments of the two [format] calls of [_get_url], with
    [bid] passed as [build_id]. *)
Definition url_kwargs (bid : pyval) (self : KleafProjectSetter) (remote_filename : string)
    : list (string * pyval) :=
  [("build_id", bid); ("build_target", opt_val (build_target self));
   ("filename", VStr (quote remote_filename))].

(** The format string names the field [build_id]. *)
Definition uses_build_id (fmt : list fmt_piece) : bool :=
  existsb (fun p => match p with Field n _ => String.eqb n "build_id" | Lit _ => false end) fmt.

(** What a call of [_download] does: log an error and return, raise, or run
    [subprocess.check_call] with the given argument vector. *)
Inductive download_outcome :=
| Logged_error (msg : string)
| Raised (e : pyexn)
| Ran_subprocess (argv : list string).

(** [script_dir] is [pathlib.Path(__file__).parent]. *)
Definition _download (script_dir : string) (self : KleafProjectSetter)
    (remote_filename out_file_name : string) : download_outcome :=
  if negb (fmt_truthy (url_fmt self)) then
    Logged_error ("Unable to download file " ++ remote_filename
                  ++ " because --url_fmt was not set.")
  else
    match _get_url self remote_filename with
    | Err e => Raised e
    | Ok url =>
        if negb (str_truthy url) then
          Logged_error ("Unable to download " ++ remote_filename
                        ++ " file because --build_id is missing.")
        else
          match url with
          | Some u => Ran_subprocess ["python3"; script_dir ++ "/init_download.py"; u; out_file_name]
          | None => Raised TypeError
          end
    end.

(** ** Paths

    A [pathlib.PurePosixPath] as parsed: absolute or not, and its components
    (none empty, none ["."], none holding ["/"]). *)
Record path := mk_path { path_abs : bool; path_tail : list string }.

(** [str(p)] *)
Definition path_str (p : path) : string :=
  if path_abs p then "/" ++ String.concat "/" (path_tail p)
  else match path_tail p with [] => "." | t => String.concat "/" t end.

(** [p / q]: an absolute [q] replaces [p]. *)
Definition path_join (p q : path) : path :=
  if path_abs q then q else mk_path (path_abs p) (app (path_tail p) (path_tail q)).

(** [p.parent] *)
Definition path_parent (p : path) : path := mk_path (path_abs p) (removelast (path_tail p)).

Fixpoint list_prefix (xs ys : list string) : bool :=
  match xs, ys with
  | [], _ => true
  | x :: xs', y :: ys' => String.eqb x y && list_prefix xs' ys'
  | _ :: _, [] => false
  end.

(** [p.relative_to(other)]: [other] must be [p] or one of its parents, with
    the same root; the result is relative. *)
Definition relative_to (p other : path) : result path :=
  if Bool.eqb (path_abs p) (path_abs other) && list_prefix (path_tail other) (path_tail p)
  then Ok (mk_path false (skipn (length (path_tail other)) (path_tail p)))
  else Err ValueError.

(** ** [textwrap.dedent]

    Text as lines split at ["\n"], as the [re.MULTILINE] patterns of
    [textwrap] see it. *)
Definition tab : ascii := "009"%char.

Definition is_blank_char (c : ascii) : bool := Ascii.eqb c " " || Ascii.eqb c tab.

(** [text.split("\n")] *)
Fixpoint split_nl (s : string) : list string :=
  match s with
  | EmptyString => [EmptyString]
  | String c rest =>
      if Ascii.eqb c nl then EmptyString :: split_nl rest
      else match split_nl rest with
           | [] => [String c EmptyString]
           | l :: ls => String c l :: ls
           end
  end.

(** ["\n".join(lines)] *)
Fixpoint join_nl (lines : list string) : string :=
  match lines with
  | [] => EmptyString
  | [l] => l
  | l :: ls => l ++ nl_s ++ join_nl ls
  end.

Fixpoint all_blank (s : string) : bool :=
  match s with
  | EmptyString => true
  | String c rest => is_blank_char c && all_blank rest
  end.

(** [_whitespace_only_re.sub('', text)] on one line. *)
Definition clear_blank (line : string) : string := if all_blank line then EmptyString else line.

Fixpoint leading_blank (s : string) : string :=
  match s with
  | String c rest => if is_blank_char c then String c (leading_blank rest) else EmptyString
  | EmptyString => EmptyString
  end.

(** [_leading_whitespace_re.findall(text)]: the leading blanks of every line
    holding another character. *)
Definition indents (lines : list string) : list string :=
  map leading_blank (filter (fun l => negb (all_blank l)) lines).

Fixpoint common_prefix (a b : string) : string :=
  match a, b with
  | String x a', String y b' => if Ascii.eqb x y then String x (common_prefix a' b') else EmptyString
  | _, _ => EmptyString
  end.

(** One iteration of the [for indent in indents] loop. *)
Definition margin_step (margin : option string) (indent : string) : option string :=
  match margin with
  | None => Some indent
  | Some m =>
      if String.prefix m indent then Some m
      else if String.prefix indent m then Some indent
      else Some (common_prefix m indent)
  end.

Fixpoint str_drop (n : nat) (s : string) : string :=
  match n, s with
  | 0, _ => s
  | S k, String _ rest => str_drop k rest
  | S _, EmptyString => EmptyString
  end.

(** [re.sub(r'(?m)^' + margin, '', text)] is applied only for a non-empty
    margin, which holds spaces and tabs only. *)
Definition dedent (text : string) : string :=
  let lines := map clear_blank (split_nl text) in
  match fold_left margin_step (indents lines) None with
  | None | Some EmptyString => join_nl lines
  | Some m =>
      join_nl (map (fun l => if String.prefix m l then str_drop (String.length m) l else l) lines)
  end.

(** ** [run] and the steps it calls

    The fields of [KleafProjectSetter] that [run] reads. *)
Record ProjectLayout := mk_layout {
  ddk_workspace : option path;
  local : bool;
  kleaf_repo : option path;
  prebuilts_dir : option path
}.

(** What [run] does to the filesystem: [Mkdir p] is
    [p.mkdir(parents=True, exist_ok=True)], which also creates the missing
    parent directories of [p]; [unlink(missing_ok=True)], [symlink_to],
    opening a file for reading and calling [_update_file]. Logging is left
    out. *)
Inductive effect :=
| Mkdir (p : path)
| Unlink (p : path)
| Symlink (p target : path)
| ReadFile (p : path)
| UpdateFile (p : path) (content : string).

(** An exception: one of [pyexn], one raised while reading and parsing
    the file [p], or an [OSError] raised by the operation [e]. *)
Inductive exn := PyErr (e : pyexn) | ReadErr (p : path) | OpErr (e : effect).

(** Effects so far, and a value or an exception. *)
Definition M (A : Type) : Type := list effect -> list effect * (A + exn).

Definition ret {A} (a : A) : M A := fun l => (l, inl a).

Definition raise {A} (e : exn) : M A := fun l => (l, inr e).

Definition emit (e : effect) : M unit := fun l => (app l [e], inl tt).

Definition bind {A B} (m : M A) (k : A -> M B) : M B :=
  fun l => let '(l', r) := m l in
           match r with inl a => k a l' | inr e => (l', inr e) end.

Notation "x <- m ;; k" := (bind m (fun x => k))
  (at level 61, m at next level, right associativity).

Definition lift (r : result string) : M string :=
  match r with Ok s => ret s | Err e => raise (PyErr e) end.

Definition _TOOLS_BAZEL : path := mk_path false ["tools"; "bazel"].
Definition _DEVICE_BAZELRC : path := mk_path false ["device.bazelrc"].
Definition _MODULE_BAZEL_FILE : path := mk_path false ["MODULE.bazel"].

Definition dq : string := String "034"%char EmptyString.

Definition _KLEAF_DEPENDENCY_TEMPLATE : list fmt_piece :=
  [Lit (dq ++ dq ++ dq ++ "Kleaf: Build Android kernels with Bazel." ++ dq ++ dq ++ dq ++ nl_s
        ++ "bazel_dep(name = " ++ dq ++ "kleaf" ++ dq ++ ")" ++ nl_s
        ++ "local_path_override(" ++ nl_s
        ++ "    module_name = " ++ dq ++ "kleaf" ++ dq ++ "," ++ nl_s
        ++ "    path = " ++ dq);
   Field "kleaf_repo_relative" "";
   Lit (dq ++ "," ++ nl_s ++ ")" ++ nl_s)].

Definition _LOCAL_PREBUILTS_CONTENT_TEMPLATE : list fmt_piece :=
  [Lit ("kernel_prebuilt_ext = use_extension(" ++ nl_s
        ++ "    " ++ dq ++ "@kleaf//build/kernel/kleaf:kernel_prebuilt_ext.bzl" ++ dq ++ "," ++ nl_s
        ++ "    " ++ dq ++ "kernel_prebuilt_ext" ++ dq ++ "," ++ nl_s
        ++ ")" ++ nl_s
        ++ "kernel_prebuilt_ext.declare_kernel_prebuilts(" ++ nl_s
        ++ "    name = " ++ dq ++ "gki_prebuilts" ++ dq ++ "," ++ nl_s
        ++ "    download_configs = ");
   Field "download_configs" "";
   Lit ("," ++ nl_s ++ "    local_artifact_path = " ++ dq);
   Field "prebuilts_dir_relative" "";
   Lit (dq ++ "," ++ nl_s ++ ")" ++ nl_s
        ++ "use_repo(kernel_prebuilt_ext, " ++ dq ++ "gki_prebuilts" ++ dq ++ ")" ++ nl_s)].

Definition _symlink_tools_bazel (self : ProjectLayout) : M unit :=
  match ddk_workspace self, kleaf_repo self with
  | Some ws, Some kr =>
      let tools_bazel := path_join ws _TOOLS_BAZEL in
      let kleaf_tools_bazel := path_join kr _TOOLS_BAZEL in
      _ <- emit (Mkdir (path_parent tools_bazel)) ;;
      _ <- emit (Unlink tools_bazel) ;;
      emit (Symlink tools_bazel kleaf_tools_bazel)
  | _, _ => ret tt
  end.

(** [path.relative_to(None)] raises [TypeError], which is not caught. *)
Definition _try_rel_workspace (self : ProjectLayout) (p : path) : M path :=
  match ddk_workspace self with
  | None => raise (PyErr TypeError)
  | Some ws => match relative_to p ws with Ok r => ret r | Err _ => ret p end
  end.

(** [read f] is what [repr(json.dumps(json.load(config), ...))] gives for
    the file [f], [None] when opening or parsing it raises. *)
Definition _read_download_configs (read : path -> option string) (self : ProjectLayout)
    : M string :=
  match prebuilts_dir self with
  | None => raise (PyErr TypeError)
  | Some pd =>
      let download_configs := path_join pd (mk_path false ["download_configs.json"]) in
      _ <- emit (ReadFile download_configs) ;;
      match read download_configs with
      | Some s => ret s
      | None => raise (ReadErr download_configs)
      end
  end.

Definition _generate_module_bazel (read : path -> option string) (self : ProjectLayout)
    : M unit :=
  match ddk_workspace self with
  | None => ret tt
  | Some ws =>
      let module_bazel := path_join ws _MODULE_BAZEL_FILE in
      c1 <- match kleaf_repo self with
            | Some kr =>
                r <- _try_rel_workspace self kr ;;
                lift (format _KLEAF_DEPENDENCY_TEMPLATE
                        [("kleaf_repo_relative", VStr (path_str r))])
            | None => ret EmptyString
            end ;;
      c2 <- match prebuilts_dir self with
            | Some pd =>
                cfg <- _read_download_configs read self ;;
                r <- _try_rel_workspace self pd ;;
                s <- lift (format _LOCAL_PREBUILTS_CONTENT_TEMPLATE
                             [("download_configs", VStr cfg);
                              ("prebuilts_dir_relative", VStr (path_str r))]) ;;
                ret (nl_s ++ s)
            | None => ret EmptyString
            end ;;
      if String.eqb (c1 ++ c2) EmptyString then ret tt
      else emit (UpdateFile module_bazel (c1 ++ c2))
  end.

(** The f-string given to [textwrap.dedent], as indented in the source. *)
Definition bazelrc_fstring (kleaf_repo : string) : string :=
  "            common --config=internet" ++ nl_s
  ++ "            common --registry=file://" ++ kleaf_repo
  ++ "/external/bazelbuild-bazel-central-registry" ++ nl_s
  ++ "            ".

Definition _generate_bazelrc (self : ProjectLayout) : M unit :=
  match ddk_workspace self, kleaf_repo self with
  | Some ws, Some kr =>
      let bazelrc := path_join ws _DEVICE_BAZELRC in
      r <- _try_rel_workspace self kr ;;
      let r := if path_abs r then r else path_join (mk_path false ["%workspace%"]) r in
      emit (UpdateFile bazelrc (dedent (bazelrc_fstring (path_str r))))
  | _, _ => ret tt
  end.

Definition _handle_ddk_workspace (self : ProjectLayout) : M unit :=
  match ddk_workspace self with Some ws => emit (Mkdir ws) | None => ret tt end.

Definition _handle_kleaf_repo (self : ProjectLayout) : M unit :=
  match kleaf_repo self with Some kr => emit (Mkdir kr) | None => ret tt end.

Definition _handle_prebuilts (self : ProjectLayout) : M unit :=
  match ddk_workspace self, prebuilts_dir self with
  | Some _, Some pd => emit (Mkdir pd)
  | _, _ => ret tt
  end.

Definition _run (read : path -> option string) (self : ProjectLayout) : M unit :=
  _ <- _symlink_tools_bazel self ;;
  _ <- _generate_module_bazel read self ;;
  _generate_bazelrc self.

Definition run (read : path -> option string) (self : ProjectLayout) : M unit :=
  _ <- _handle_ddk_workspace self ;;
  _ <- _handle_kleaf_repo self ;;
  _ <- _handle_prebuilts self ;;
  _run read self.

(** [run] lists the operations it starts as if each one returned normally.
    Any of them may raise instead ([mkdir], [unlink], [symlink_to], [open]
    and [_update_file] raise [OSError] on a missing permission, a file in
    the way, a full disk, ...): [fails i] says whether the [i]-th operation
    started raises. No value returned by an operation is used afterwards,
    and nothing in [run] catches an [OSError], so the operations started are
    those of [run] up to the first one that raises, which ends [run] with its
    exception. *)
Fixpoint cut_at (fails : nat -> bool) (i : nat) (effs : list effect) (r : unit + exn)
    : list effect * (unit + exn) :=
  match effs with
  | [] => ([], r)
  | e :: es =>
      if fails i then ([e], inr (OpErr e))
      else let '(es', r') := cut_at fails (S i) es r in (e :: es', r')
  end.

Definition run_os (fails : nat -> bool) (read : path -> option string) (self : ProjectLayout)
    : list effect * (unit + exn) :=
  let '(effs, r) := run read self [] in cut_at fails 0 effs r.

(** ** Predicates on text used by the statements *)

Fixpoint ends_nl (s : string) : bool :=
  match s with
  | EmptyString => false
  | String c EmptyString => Ascii.eqb c nl
  | String _ rest => ends_nl rest
  end.

(** Empty, or ending with a newline: every line of it is complete. *)
Definition terminated (s : string) : bool := String.eqb s EmptyString || ends_nl s.

Fixpoint no_char (x : ascii) (s : string) : bool :=
  match s with
  | EmptyString => true
  | String c rest => negb (Ascii.eqb c x) && no_char x rest
  end.

(** A complete line as the program reads it: one ["\n"], at its end, and no
    ["\r"]. *)
Fixpoint is_line (s : string) : bool :=
  match s with
  | EmptyString => false
  | String c EmptyString => Ascii.eqb c nl
  | String c rest => negb (Ascii.eqb c nl) && negb (Ascii.eqb c cr) && is_line rest
  end.

Definition has_no_marker (l : string) : bool :=
  negb (contains _FILE_MARKER_BEGIN l) && negb (contains _FILE_MARKER_END l).

(** The replacement text is free of markers once written with its newline
    and read back. *)
Definition clean_update (update : string) : bool :=
  forallb has_no_marker (split_lines (decode_newlines (update ++ nl_s))).

(** Lines of a file as the program reads them that contain [marker]. *)
Definition count_marker_lines (marker content : string) : nat :=
  length (filter (contains marker) (split_lines (decode_newlines content))).

Fixpoint str_forallb (f : ascii -> bool) (s : string) : bool :=
  match s with
  | EmptyString => true
  | String c rest => f c && str_forallb f rest
  end.

Definition is_upper_hex (c : ascii) : bool :=
  let n := nat_of_ascii c in is_digit c || (Nat.leb 65 n && Nat.leb n 70).

(** A character [quote] may write: an unreserved one, ["%"] or an
    upper-case hexadecimal digit. *)
Definition quote_out_char (c : ascii) : bool :=
  always_safe c || Ascii.eqb c "%" || is_upper_hex c.

(** The [download_configs.json] file under the prebuilts directory. *)
Definition download_configs_path (pd : path) : path :=
  path_join pd (mk_path false ["download_configs.json"]).

(** The files passed to [_update_file], in order. *)
Definition update_targets (effs : list effect) : list path :=
  flat_map (fun e => match e with UpdateFile p _ => [p] | _ => [] end) effs.

(** The operations [run] may start for the layout [self]:
    [mkdir(parents=True, exist_ok=True)] of the three directories and of
    [tools] in the workspace (creating their missing parents too),
    replacing [tools/bazel] in the workspace by a link to the one in the
    Kleaf repo, reading [download_configs.json] and updating [MODULE.bazel]
    and [device.bazelrc] in the workspace. *)
Definition allowed_effect (self : ProjectLayout) (e : effect) : Prop :=
  match e with
  | Mkdir p =>
      ddk_workspace self = Some p \/ kleaf_repo self = Some p \/ prebuilts_dir self = Some p
      \/ exists ws, ddk_workspace self = Some ws /\ p = path_join ws (mk_path false ["tools"])
  | Unlink p => exists ws, ddk_workspace self = Some ws /\ p = path_join ws _TOOLS_BAZEL
  | Symlink p t =>
      exists ws kr, ddk_workspace self = Some ws /\ kleaf_repo self = Some kr
                    /\ p = path_join ws _TOOLS_BAZEL /\ t = path_join kr _TOOLS_BAZEL
  | ReadFile p => exists pd, prebuilts_dir self = Some pd /\ p = download_configs_path pd
  | UpdateFile p _ =>
      exists ws, ddk_workspace self = Some ws
                 /\ (p = path_join ws _MODULE_BAZEL_FILE \/ p = path_join ws _DEVICE_BAZELRC)
  end.

(** ** Auxiliary definitions of the proofs *)

(** [m] adds only effects satisfying [P] to the ones before it. *)
Definition keeps (P : effect -> Prop) {A} (m : M A) : Prop :=
  forall l, Forall P l -> Forall P (fst (m l)).

(** One character as [quote] writes it. *)
Definition qpiece (c : ascii) : string :=
  if always_safe c then String c EmptyString
  else String.concat "" (map percent_byte (utf8_bytes c)).

Definition hex_val (c : ascii) : option nat :=
  let n := nat_of_ascii c in
  if is_digit c then Some (n - 48)
  else if Nat.leb 65 n && Nat.leb n 70 then Some (n - 55) else None.

(** Percent-decoding to bytes, and UTF-8 decoding to code points: the
    inverses of the two stages of [quote_cp]. *)
Fixpoint unpct (s : string) : list Z :=
  match s with
  | EmptyString => []
  | String c rest =>
      if Ascii.eqb c "%" then
        match rest with
        | String h1 (String h2 rest') =>
            match hex_val h1, hex_val h2 with
            | Some a, Some b => Z.of_nat (a * 16 + b) :: unpct rest'
            | _, _ => []
            end
        | _ => []
        end
      else code_of c :: unpct rest
  end.

Fixpoint utf8_decode (bs : list Z) : list Z :=
  match bs with
  | [] => []
  | b :: r =>
      if (b <? 128)%Z then b :: utf8_decode r
      else if (b <? 224)%Z then
        match r with
        | b1 :: r1 => ((b - 192) * 64 + (b1 - 128))%Z :: utf8_decode r1
        | [] => []
        end
      else if (b <? 240)%Z then
        match r with
        | b1 :: b2 :: r2 =>
            ((b - 224) * 4096 + (b1 - 128) * 64 + (b2 - 128))%Z :: utf8_decode r2
        | _ => []
        end
      else
        match r with
        | b1 :: b2 :: b3 :: r3 =>
            ((b - 240) * 262144 + (b1 - 128) * 4096 + (b2 - 128) * 64 + (b3 - 128))%Z
            :: utf8_decode r3
        | _ => []
        end
  end.

(** The one- or three-character piece [quote_byte] writes decodes back. *)
Definition piece_ok (b : Z) : bool :=
  match quote_byte b with
  | String c EmptyString => negb (Ascii.eqb c "%") && (code_of c =? b)%Z
  | String c (String h1 (String h2 EmptyString)) =>
      Ascii.eqb c "%"
      && match hex_val h1, hex_val h2 with
         | Some x, Some y => (Z.of_nat (x * 16 + y) =? b)%Z
         | _, _ => false
         end
  | _ => false
  end.

Definition after_add (update : string) (st : loop_state) : list string :=
  if add_content st then app (written st) [_FILE_MARKER_BEGIN; update ++ nl_s]
  else written st.

Definition wr_after_add (st : loop_state) : bool :=
  if add_content st then true else update_written st.

(** *** The shape of a written file

    An automaton over the chunks written by [_update_file]: outside a
    section ([MCopy], remembering whether a section was seen), right after a
    begin marker ([MAfterB], the replacement text must follow) and inside a
    written section ([MSec]). *)
Inductive mode := MCopy (seen : bool) | MAfterB | MSec.

Definition auto_step (r : string) (m : mode) (c : string) : option mode :=
  match m with
  | MCopy b =>
      if String.eqb c _FILE_MARKER_BEGIN then Some MAfterB
      else if is_line c && negb (contains _FILE_MARKER_BEGIN c) then Some (MCopy b)
      else None
  | MAfterB => if String.eqb c r then Some MSec else None
  | MSec =>
      if String.eqb c _FILE_MARKER_BEGIN then Some MAfterB
      else if is_line c && contains _FILE_MARKER_END c
              && negb (contains _FILE_MARKER_BEGIN c)
      then Some (MCopy true) else None
  end.

Fixpoint auto_run (r : string) (m : mode) (cs : list string) : option mode :=
  match cs with
  | [] => Some m
  | c :: cs' =>
      match auto_step r m c with
      | Some m' => auto_run r m' cs'
      | None => None
      end
  end.

Definition accepting (m : mode) : bool :=
  match m with MCopy true | MSec => true | _ => false end.

(** Invariant of the loop on the first run. *)
Definition inv1 (r : string) (st : loop_state) : Prop :=
  let a := auto_run r (MCopy false) (written st) in
  match add_content st, skip_line st with
  | false, false => a = Some (MCopy (update_written st))
  | true, true =>
      a = Some (MCopy (update_written st)) \/ (a = Some MSec /\ update_written st = true)
  | false, true => a = Some MSec /\ update_written st = true
  | true, false => False
  end.

(** Loop state of the second run for an automaton mode. *)
Definition corr (m : mode) (st : loop_state) : Prop :=
  match m with
  | MCopy b => add_content st = false /\ skip_line st = false
               /\ (b = true -> update_written st = true)
  | MAfterB => add_content st = true /\ skip_line st = true
  | MSec => add_content st = false /\ skip_line st = true /\ update_written st = true
  end.

(** The begin marker read but not yet written back. *)
Definition owed (m : mode) : list string :=
  match m with MAfterB => [_FILE_MARKER_BEGIN] | _ => [] end.

(** The marker texts without their newline. *)
Definition begin_text : string := "### GENERATED SECTION - DO NOT MODIFY - BEGIN ###".
Definition end_text : string := "### GENERATED SECTION - DO NOT MODIFY - END ###".

(** ** Lemmas on strings and lines *)

Lemma sapp_assoc (a b c : string) : a ++ (b ++ c) = (a ++ b) ++ c.
Proof. induction a; simpl; [reflexivity | now rewrite IHa]. Qed.

Lemma sapp_nil_r (a : string) : a ++ EmptyString = a.
Proof. induction a; simpl; [reflexivity | now rewrite IHa]. Qed.

Lemma join_app (xs ys : list string) : join (xs ++ ys)%list = join xs ++ join ys.
Proof. induction xs; simpl; [reflexivity | now rewrite IHxs, sapp_assoc]. Qed.

Lemma join_split (s : string) : join (split_lines s) = s.
Proof.
  induction s as [|c rest IH]; simpl; [reflexivity|].
  destruct (Ascii.eqb c nl); simpl; [now rewrite IH|].
  destruct (split_lines rest) as [|l ls]; simpl in *; subst; reflexivity.
Qed.

Lemma split_nonempty (s : string) : s <> EmptyString -> split_lines s <> [].
Proof.
  destruct s as [|c rest]; [congruence|]; intros _; simpl.
  destruct (Ascii.eqb c nl); [discriminate|].
  destruct (split_lines rest); discriminate.
Qed.

Lemma ends_nl_cons (c : ascii) (rest : string) :
  rest <> EmptyString -> ends_nl (String c rest) = ends_nl rest.
Proof. destruct rest; [congruence | reflexivity]. Qed.

Lemma terminated_tail (c : ascii) (rest : string) :
  terminated (String c rest) = true -> terminated rest = true.
Proof.
  unfold terminated; simpl. destruct rest as [|c' r']; [reflexivity|].
  simpl; intros H; exact H.
Qed.

Lemma split_app (a b : string) :
  terminated a = true -> split_lines (a ++ b) = (split_lines a ++ split_lines b)%list.
Proof.
  induction a as [|c rest IH]; intros Ht; [reflexivity|].
  simpl. specialize (IH (terminated_tail _ _ Ht)).
  rewrite IH. destruct (Ascii.eqb c nl) eqn:Ec; [reflexivity|].
  destruct rest as [|c' r'].
  - unfold terminated in Ht; simpl in Ht. congruence.
  - assert (Hne : split_lines (String c' r') <> []) by (apply split_nonempty; discriminate).
    destruct (split_lines (String c' r')); [congruence|reflexivity].
Qed.

Lemma nl_not_cr : Ascii.eqb nl cr = false.
Proof. reflexivity. Qed.

(** Induction on the length of a string, for the two-character step of
    [decode_newlines]. *)
Lemma string_len_ind (P : string -> Prop) :
  (forall s, (forall t, String.length t < String.length s -> P t) -> P s) ->
  forall s, P s.
Proof.
  intros H s. remember (String.length s) as n eqn:En.
  revert s En. induction n as [n IHn] using lt_wf_ind.
  intros s ->. apply H. intros t Ht. now apply (IHn (String.length t)).
Qed.

Lemma decode_cr_cons (c' : ascii) (r : string) :
  decode_newlines (String cr (String c' r)) =
  if Ascii.eqb c' nl then String nl (decode_newlines r)
  else String nl (decode_newlines (String c' r)).
Proof. reflexivity. Qed.

Lemma decode_cons_other (c : ascii) (r : string) :
  Ascii.eqb c cr = false ->
  decode_newlines (String c r) = String c (decode_newlines r).
Proof. intros H. simpl. rewrite H. reflexivity. Qed.

Lemma decode_app (a b : string) :
  terminated a = true ->
  decode_newlines (a ++ b) = decode_newlines a ++ decode_newlines b.
Proof.
  revert a. apply (string_len_ind (fun a => terminated a = true -> _)).
  intros [|c rest] IH Ht; [reflexivity|].
  destruct (Ascii.eqb c cr) eqn:Ec.
  - apply Ascii.eqb_eq in Ec; subst c. destruct rest as [|c' r'].
    + unfold terminated in Ht; simpl in Ht. discriminate.
    + change (String cr (String c' r') ++ b) with (String cr (String c' (r' ++ b))).
      rewrite !decode_cr_cons. destruct (Ascii.eqb c' nl) eqn:Ec'.
      * assert (Hr : terminated r' = true).
        { destruct r' as [|x y]; [reflexivity|].
          unfold terminated in *; simpl in *. exact Ht. }
        rewrite (IH r'); [reflexivity | simpl; lia | exact Hr].
      * pose proof (IH (String c' r') ltac:(simpl; lia) (terminated_tail _ _ Ht)) as E.
        change (String c' r' ++ b) with (String c' (r' ++ b)) in E.
        rewrite E. reflexivity.
  - change (String c rest ++ b) with (String c (rest ++ b)).
    rewrite !decode_cons_other by exact Ec.
    rewrite IH; [reflexivity | simpl; lia | exact (terminated_tail _ _ Ht)].
Qed.

Lemma decode_terminated (a : string) :
  terminated a = true -> terminated (decode_newlines a) = true.
Proof.
  revert a. apply (string_len_ind (fun a => terminated a = true -> _)).
  intros [|c rest] IH Ht; [reflexivity|].
  simpl. destruct (Ascii.eqb c cr) eqn:Ec.
  - destruct rest as [|c' r'].
    + apply Ascii.eqb_eq in Ec; subst. unfold terminated in Ht; simpl in Ht. discriminate.
    + destruct (Ascii.eqb c' nl) eqn:Ec'.
      * destruct r' as [|x y]; [reflexivity|].
        assert (Hr : terminated (String x y) = true) by exact Ht.
        specialize (IH (String x y) ltac:(simpl; lia) Hr).
        destruct (decode_newlines (String x y)) eqn:Ed; [reflexivity|].
        unfold terminated in *; simpl in *. exact IH.
      * specialize (IH (String c' r') ltac:(simpl; lia) (terminated_tail _ _ Ht)).
        destruct (decode_newlines (String c' r')) eqn:Ed; [reflexivity|].
        unfold terminated in *; simpl in *. exact IH.
  - specialize (IH rest ltac:(simpl; lia) (terminated_tail _ _ Ht)).
    destruct rest as [|c' r'].
    + unfold terminated in Ht; simpl in Ht. apply Ascii.eqb_eq in Ht; subst.
      reflexivity.
    + destruct (decode_newlines (String c' r')) eqn:Ed.
      * simpl in Ed. destruct (Ascii.eqb c' cr); [destruct r' as [|? ?]; [|destruct (Ascii.eqb _ nl)]|]; discriminate.
      * unfold terminated in *; simpl in *. exact IH.
Qed.

Lemma decode_no_cr (s : string) : no_char cr (decode_newlines s) = true.
Proof.
  revert s. apply string_len_ind. intros [|c rest] IH; [reflexivity|].
  destruct (Ascii.eqb c cr) eqn:Ec.
  - apply Ascii.eqb_eq in Ec; subst c. destruct rest as [|c' r']; [reflexivity|].
    rewrite decode_cr_cons. destruct (Ascii.eqb c' nl).
    + change (negb (Ascii.eqb nl cr) && no_char cr (decode_newlines r') = true).
      rewrite IH; [reflexivity | simpl; lia].
    + change (negb (Ascii.eqb nl cr) && no_char cr (decode_newlines (String c' r')) = true).
      rewrite IH; [reflexivity | simpl; lia].
  - rewrite decode_cons_other by exact Ec. simpl. rewrite Ec, IH; [reflexivity | simpl; lia].
Qed.

Lemma is_line_props (l : string) :
  is_line l = true ->
  decode_newlines l = l /\ split_lines l = [l] /\ terminated l = true.
Proof.
  induction l as [|c rest IH]; [discriminate|].
  destruct rest as [|c' r'].
  - simpl. intros Hc. apply Ascii.eqb_eq in Hc; subst. repeat split.
  - intros H. change (negb (Ascii.eqb c nl) && negb (Ascii.eqb c cr)
                      && is_line (String c' r') = true) in H.
    apply andb_prop in H as [H Hr]. apply andb_prop in H as [Hn Hc].
    apply negb_true_iff in Hn, Hc.
    destruct (IH Hr) as (Hd & Hs & Ht). repeat split.
    + simpl. rewrite Hc. f_equal. exact Hd.
    + simpl. rewrite Hn. simpl in Hs. rewrite Hs. reflexivity.
    + unfold terminated in *; simpl in *. exact Ht.
Qed.

Lemma lines_are_lines (t : string) :
  no_char cr t = true -> terminated t = true ->
  Forall (fun l => is_line l = true) (split_lines t).
Proof.
  induction t as [|c rest IH]; intros Hcr Ht; [constructor|].
  simpl in Hcr. apply andb_prop in Hcr as [Hc Hcr]. apply negb_true_iff in Hc.
  specialize (IH Hcr (terminated_tail _ _ Ht)).
  simpl. destruct (Ascii.eqb c nl) eqn:En.
  - constructor; [simpl; exact En | exact IH].
  - destruct rest as [|c' r'].
    + unfold terminated in Ht; simpl in Ht. congruence.
    + destruct (split_lines (String c' r')) as [|l ls] eqn:Es.
      * exfalso. apply (split_nonempty (String c' r')); [discriminate | exact Es].
      * inversion IH as [|? ? Hl Hls]; subst. constructor; [|exact Hls].
        destruct l as [|x y]; [discriminate|].
        change (negb (Ascii.eqb c nl) && negb (Ascii.eqb c cr) && is_line (String x y) = true).
        rewrite En, Hc, Hl. reflexivity.
Qed.

Lemma split_decode_join (cs : list string) :
  Forall (fun c => terminated c = true) cs ->
  split_lines (decode_newlines (join cs)) = flat_map (fun c => split_lines (decode_newlines c)) cs.
Proof.
  induction 1 as [|c cs Hc Hcs IH]; [reflexivity|].
  simpl. rewrite decode_app by exact Hc.
  rewrite split_app by (apply decode_terminated; exact Hc). now rewrite IH.
Qed.

(** ** Substring tests *)

Lemma contains_unfold (m s : string) :
  contains m s = prefix m s || match s with
                              | EmptyString => false
                              | String _ rest => contains m rest
                              end.
Proof. destruct s; reflexivity. Qed.

Lemma prefix_app (p t : string) : prefix p (p ++ t) = true.
Proof.
  induction p as [|a p IH]; [destruct t; reflexivity|]. simpl.
  destruct (ascii_dec a a); [exact IH | congruence].
Qed.

Lemma contains_middle (m x y : string) : contains m (x ++ m ++ y) = true.
Proof.
  induction x as [|c x IH].
  - rewrite contains_unfold. simpl. rewrite prefix_app. reflexivity.
  - rewrite contains_unfold. simpl. rewrite IH. apply orb_true_r.
Qed.

Lemma prefix_no_char (x : ascii) (p s : string) :
  prefix p s = true -> no_char x s = true -> no_char x p = true.
Proof.
  revert s. induction p as [|a p IH]; intros [|b s] Hp Hs; try reflexivity;
    try (simpl in Hp; discriminate).
  simpl in Hp. destruct (ascii_dec a b) as [->|]; [|discriminate].
  simpl in Hs |- *. apply andb_prop in Hs as [Hb Hs]. rewrite Hb. simpl. eauto.
Qed.

Lemma contains_no_char (x : ascii) (m s : string) :
  no_char x m = false -> no_char x s = true -> contains m s = false.
Proof.
  intros Hm. induction s as [|c s IH]; intros Hs.
  - rewrite contains_unfold. destruct m; [discriminate | reflexivity].
  - rewrite contains_unfold. simpl in Hs. apply andb_prop in Hs as [Hc Hs].
    rewrite (IH Hs), orb_false_r.
    destruct (prefix m (String c s)) eqn:Hp; [|reflexivity].
    pose proof (prefix_no_char x _ _ Hp) as H. simpl in H. rewrite Hc, Hs in H.
    rewrite H in Hm by reflexivity. discriminate.
Qed.

Lemma begin_in_begin : contains _FILE_MARKER_BEGIN _FILE_MARKER_BEGIN = true.
Proof. reflexivity. Qed.
Lemma end_in_end : contains _FILE_MARKER_END _FILE_MARKER_END = true.
Proof. reflexivity. Qed.
Lemma end_not_in_begin : contains _FILE_MARKER_END _FILE_MARKER_BEGIN = false.
Proof. reflexivity. Qed.
Lemma begin_not_in_end : contains _FILE_MARKER_BEGIN _FILE_MARKER_END = false.
Proof. reflexivity. Qed.
Lemma begin_is_line : is_line _FILE_MARKER_BEGIN = true.
Proof. reflexivity. Qed.
Lemma end_is_line : is_line _FILE_MARKER_END = true.
Proof. reflexivity. Qed.

(** ** One iteration of the loop, by the kind of line *)

Lemma step_begin (update : string) (st : loop_state) (b : string) :
  contains _FILE_MARKER_BEGIN b = true ->
  loop_step update st b = mk_state true true (wr_after_add st) (after_add update st).
Proof.
  intros Hb. unfold loop_step, after_add, wr_after_add.
  rewrite Hb. destruct (add_content st), (contains _FILE_MARKER_END b); reflexivity.
Qed.

Lemma step_end (update : string) (st : loop_state) (e : string) :
  contains _FILE_MARKER_END e = true -> contains _FILE_MARKER_BEGIN e = false ->
  loop_step update st e =
  mk_state false false (wr_after_add st) (app (after_add update st) [e]).
Proof.
  intros He Hb. unfold loop_step, after_add, wr_after_add.
  rewrite He, Hb. destruct (add_content st); reflexivity.
Qed.

Lemma step_plain (update : string) (st : loop_state) (l : string) :
  has_no_marker l = true ->
  loop_step update st l =
  mk_state false (skip_line st) (wr_after_add st)
    (if skip_line st then after_add update st else app (after_add update st) [l]).
Proof.
  intros H. unfold has_no_marker in H. apply andb_prop in H as [Hb He].
  apply negb_true_iff in Hb, He.
  unfold loop_step, after_add, wr_after_add. rewrite He, Hb.
  destruct (add_content st), (skip_line st); reflexivity.
Qed.

Lemma step_copy (update : string) (st : loop_state) (l : string) :
  contains _FILE_MARKER_BEGIN l = false -> add_content st = false -> skip_line st = false ->
  loop_step update st l = mk_state false false (update_written st) (app (written st) [l]).
Proof.
  intros Hb Ha Hs. unfold loop_step. rewrite Ha, Hb, Hs.
  destruct (contains _FILE_MARKER_END l); reflexivity.
Qed.

Lemma loop_copy (update : string) (ls : list string) (wr : bool) (o : list string) :
  Forall (fun l => contains _FILE_MARKER_BEGIN l = false) ls ->
  fold_left (loop_step update) ls (mk_state false false wr o) =
  mk_state false false wr (app o ls).
Proof.
  intros H. revert o. induction H as [|l ls Hl Hls IH]; intros o.
  - simpl. now rewrite app_nil_r.
  - simpl. rewrite step_copy by auto. rewrite IH. simpl. now rewrite <- app_assoc.
Qed.

Lemma loop_skip (update : string) (ls : list string) (wr : bool) (o : list string) :
  Forall (fun l => has_no_marker l = true) ls ->
  fold_left (loop_step update) ls (mk_state false true wr o) = mk_state false true wr o.
Proof.
  induction 1 as [|l ls Hl Hls IH]; [reflexivity|].
  simpl. rewrite step_plain by exact Hl. exact IH.
Qed.

Lemma loop_written_prefix (update : string) (ls : list string) (st : loop_state) :
  exists t, written (fold_left (loop_step update) ls st) = app (written st) t.
Proof.
  revert st. induction ls as [|l ls IH]; intros st.
  - exists []. simpl. now rewrite app_nil_r.
  - simpl. destruct (IH (loop_step update st l)) as [t Ht]. rewrite Ht.
    unfold loop_step.
    destruct (add_content st), (contains _FILE_MARKER_END l),
      (contains _FILE_MARKER_BEGIN l), (skip_line st); simpl;
      eexists; rewrite <- ?app_assoc; reflexivity.
Qed.

(** ** The writes of [_update_file] by the shape of the input *)

Lemma writes_no_begin (update : string) (ls : list string) :
  Forall (fun l => contains _FILE_MARKER_BEGIN l = false) ls ->
  update_writes ls update =
  app ls [_FILE_MARKER_BEGIN; update ++ nl_s; _FILE_MARKER_END].
Proof.
  intros H. unfold update_writes, init_state. rewrite loop_copy by exact H. reflexivity.
Qed.

(** After the begin-marker line [b], the body [mid] and the end-marker line
    [e], the loop is back to copying, with the section written. *)
Lemma loop_section (update : string) (b : string) (mid : list string) (e : string)
    (wr : bool) (o : list string) :
  contains _FILE_MARKER_BEGIN b = true ->
  Forall (fun l => has_no_marker l = true) mid ->
  contains _FILE_MARKER_END e = true -> contains _FILE_MARKER_BEGIN e = false ->
  fold_left (loop_step update) (b :: mid ++ [e]) (mk_state false false wr o) =
  mk_state false false true (app o [_FILE_MARKER_BEGIN; update ++ nl_s; e]).
Proof.
  intros Hb Hmid He Heb. simpl. rewrite step_begin by exact Hb.
  unfold after_add, wr_after_add; simpl.
  destruct mid as [|m ms].
  - simpl. rewrite step_end by assumption. unfold after_add, wr_after_add; simpl.
    now rewrite <- app_assoc.
  - inversion Hmid as [|? ? Hm Hms]; subst. simpl.
    rewrite step_plain by exact Hm. unfold after_add, wr_after_add; simpl.
    rewrite fold_left_app, loop_skip by exact Hms. simpl.
    rewrite step_end by assumption. unfold after_add, wr_after_add; simpl.
    now rewrite <- app_assoc.
Qed.

Lemma writes_section (update : string) (pre : list string) (b : string)
    (mid : list string) (e : string) (post : list string) :
  Forall (fun l => contains _FILE_MARKER_BEGIN l = false) pre ->
  contains _FILE_MARKER_BEGIN b = true ->
  Forall (fun l => has_no_marker l = true) mid ->
  contains _FILE_MARKER_END e = true -> contains _FILE_MARKER_BEGIN e = false ->
  Forall (fun l => contains _FILE_MARKER_BEGIN l = false) post ->
  update_writes (app pre (b :: mid ++ e :: post)) update =
  app pre (_FILE_MARKER_BEGIN :: (update ++ nl_s) :: e :: post).
Proof.
  intros Hpre Hb Hmid He Heb Hpost. unfold update_writes, init_state.
  replace (b :: mid ++ e :: post)%list with ((b :: mid ++ [e]) ++ post)%list
    by (simpl; now rewrite <- app_assoc).
  rewrite !fold_left_app, loop_copy by exact Hpre.
  rewrite loop_section by assumption.
  rewrite loop_copy by exact Hpost. simpl. now rewrite <- app_assoc.
Qed.

Lemma writes_section_prefix (update : string) (pre : list string) (b : string)
    (mid : list string) (e : string) (post : list string) :
  Forall (fun l => contains _FILE_MARKER_BEGIN l = false) pre ->
  contains _FILE_MARKER_BEGIN b = true ->
  Forall (fun l => has_no_marker l = true) mid ->
  contains _FILE_MARKER_END e = true -> contains _FILE_MARKER_BEGIN e = false ->
  exists tail, update_writes (app pre (b :: mid ++ e :: post)) update =
               app pre (_FILE_MARKER_BEGIN :: (update ++ nl_s) :: e :: tail).
Proof.
  intros Hpre Hb Hmid He Heb. unfold update_writes, init_state.
  replace (b :: mid ++ e :: post)%list with ((b :: mid ++ [e]) ++ post)%list
    by (simpl; now rewrite <- app_assoc).
  rewrite !fold_left_app, loop_copy by exact Hpre.
  rewrite loop_section by assumption.
  simpl app.
  destruct (loop_written_prefix update post
              (mk_state false false true (app pre [_FILE_MARKER_BEGIN; update ++ nl_s; e])))
    as [t Ht].
  simpl in Ht.
  destruct (update_written _); rewrite Ht.
  - exists t. now rewrite <- !app_assoc.
  - eexists. now rewrite <- !app_assoc.
Qed.

Lemma writes_unclosed (update : string) (pre : list string) (b : string)
    (rest : list string) :
  Forall (fun l => contains _FILE_MARKER_BEGIN l = false) pre ->
  contains _FILE_MARKER_BEGIN b = true ->
  rest <> [] -> Forall (fun l => has_no_marker l = true) rest ->
  update_writes (app pre (b :: rest)) update =
  app pre [_FILE_MARKER_BEGIN; update ++ nl_s].
Proof.
  intros Hpre Hb Hne Hrest. unfold update_writes, init_state.
  rewrite fold_left_app, loop_copy by exact Hpre. simpl.
  rewrite step_begin by exact Hb. unfold after_add, wr_after_add; simpl.
  destruct rest as [|r rs]; [congruence|].
  inversion Hrest as [|? ? Hr Hrs]; subst. simpl.
  rewrite step_plain by exact Hr. unfold after_add, wr_after_add; simpl.
  rewrite loop_skip by exact Hrs. reflexivity.
Qed.

(** A line with no end marker, read while skipping, is not copied and keeps
    the loop skipping; only the pending section is written. *)
Lemma loop_unclosed_skip (update : string) (rest : list string) :
  Forall (fun l => contains _FILE_MARKER_END l = false) rest ->
  forall st, skip_line st = true ->
  exists w, skip_line (fold_left (loop_step update) rest st) = true
    /\ written (fold_left (loop_step update) rest st) = app (written st) w
    /\ Forall (fun c => c = _FILE_MARKER_BEGIN \/ c = update ++ nl_s) w.
Proof.
  induction 1 as [|l rest Hl Hrest IH]; intros st Hs.
  - exists []. simpl. rewrite app_nil_r. auto.
  - simpl. destruct (IH (loop_step update st l)) as [w [Hs' [Hw Hf]]].
    + unfold loop_step. rewrite Hl, Hs.
      destruct (add_content st), (contains _FILE_MARKER_BEGIN l); reflexivity.
    + assert (Hst : exists w0, written (loop_step update st l) = app (written st) w0
                /\ Forall (fun c => c = _FILE_MARKER_BEGIN \/ c = update ++ nl_s) w0).
      { unfold loop_step. rewrite Hl, Hs.
        destruct (add_content st), (contains _FILE_MARKER_BEGIN l); simpl;
          first [ exists [_FILE_MARKER_BEGIN; update ++ nl_s]; split;
                  [reflexivity | constructor; [now left | constructor; [now right | constructor]]]
                | exists []; rewrite app_nil_r; split; [reflexivity | constructor] ]. }
      destruct Hst as [w0 [Hw0 Hf0]].
      exists (app w0 w). split; [exact Hs'|]. split.
      * rewrite Hw, Hw0, app_assoc. reflexivity.
      * apply Forall_app; auto.
Qed.

Lemma writes_unclosed_any (update : string) (pre : list string) (b : string)
    (rest : list string) :
  contains _FILE_MARKER_BEGIN b = true ->
  Forall (fun l => contains _FILE_MARKER_END l = false) rest ->
  exists w, update_writes (app pre (b :: rest)) update =
    app (written (fold_left (loop_step update) (app pre [b]) init_state)) w
    /\ Forall (fun c => c = _FILE_MARKER_BEGIN \/ c = update ++ nl_s
                        \/ c = _FILE_MARKER_END) w.
Proof.
  intros Hb Hrest. unfold update_writes.
  replace (app pre (b :: rest)) with (app (app pre [b]) rest)
    by (rewrite <- app_assoc; reflexivity).
  rewrite fold_left_app.
  set (st := fold_left (loop_step update) (app pre [b]) init_state).
  assert (Hs : skip_line st = true).
  { unfold st. rewrite fold_left_app. simpl. rewrite step_begin by exact Hb.
    reflexivity. }
  destruct (loop_unclosed_skip update rest Hrest st Hs) as [w [_ [Hw Hf]]].
  assert (Hf' : Forall (fun c => c = _FILE_MARKER_BEGIN \/ c = update ++ nl_s
                        \/ c = _FILE_MARKER_END) w).
  { eapply Forall_impl; [|exact Hf]. simpl. tauto. }
  destruct (update_written (fold_left (loop_step update) rest st)).
  - exists w. split; [exact Hw | exact Hf'].
  - exists (app w [_FILE_MARKER_BEGIN; update ++ nl_s; _FILE_MARKER_END]).
    split.
    + rewrite Hw, <- app_assoc. reflexivity.
    + apply Forall_app. split; [exact Hf'|].
      constructor; [now left|]. constructor; [now right; left|].
      constructor; [now right; right|]. constructor.
Qed.

(** ** The shape of a written file *)

Lemma auto_run_app (r : string) (m : mode) (xs ys : list string) :
  auto_run r m (app xs ys) =
  match auto_run r m xs with Some m' => auto_run r m' ys | None => None end.
Proof.
  revert m. induction xs as [|x xs IH]; intros m; [reflexivity|].
  simpl. destruct (auto_step r m x); [apply IH | reflexivity].
Qed.

Lemma line_not_begin (l : string) :
  contains _FILE_MARKER_BEGIN l = false -> String.eqb l _FILE_MARKER_BEGIN = false.
Proof.
  intros H. apply String.eqb_neq. intros ->. rewrite begin_in_begin in H. discriminate.
Qed.

Lemma auto_section (r : string) (m : mode) :
  (exists b, m = MCopy b) \/ m = MSec ->
  auto_run r m [_FILE_MARKER_BEGIN; r] = Some MSec.
Proof.
  intros [[b ->] | ->]; simpl; rewrite ?String.eqb_refl; reflexivity.
Qed.

Lemma auto_copy_line (r : string) (b : bool) (l : string) :
  is_line l = true -> contains _FILE_MARKER_BEGIN l = false ->
  auto_run r (MCopy b) [l] = Some (MCopy b).
Proof.
  intros Hl Hb. simpl. rewrite line_not_begin, Hl, Hb by exact Hb. reflexivity.
Qed.

Lemma auto_end_line (r : string) (l : string) :
  is_line l = true -> contains _FILE_MARKER_END l = true ->
  contains _FILE_MARKER_BEGIN l = false ->
  auto_run r MSec [l] = Some (MCopy true).
Proof.
  intros Hl He Hb. simpl. rewrite line_not_begin, Hl, He, Hb by exact Hb. reflexivity.
Qed.

Lemma terminated_app_nl (s : string) : terminated (s ++ nl_s) = true.
Proof.
  unfold terminated. apply orb_true_iff. right.
  induction s as [|c s IH]; [reflexivity|].
  simpl. destruct (s ++ nl_s) eqn:E; [destruct s; discriminate | exact IH].
Qed.

Lemma auto_run_terminated (r : string) (m m' : mode) (cs : list string) :
  terminated r = true -> auto_run r m cs = Some m' ->
  Forall (fun c => terminated c = true) cs.
Proof.
  intros Hr. revert m. induction cs as [|c cs IH]; intros m H; [constructor|].
  simpl in H. destruct (auto_step r m c) as [m1|] eqn:Es; [|discriminate].
  constructor; [|exact (IH m1 H)].
  destruct m; simpl in Es.
  - destruct (String.eqb c _FILE_MARKER_BEGIN) eqn:Eb.
    + apply String.eqb_eq in Eb; subst; reflexivity.
    + destruct (is_line c) eqn:El; [|discriminate]. apply (is_line_props c El).
  - destruct (String.eqb c r) eqn:Eb; [|discriminate].
    apply String.eqb_eq in Eb; subst; exact Hr.
  - destruct (String.eqb c _FILE_MARKER_BEGIN) eqn:Eb.
    + apply String.eqb_eq in Eb; subst; reflexivity.
    + destruct (is_line c) eqn:El; [|discriminate]. apply (is_line_props c El).
Qed.

(** *** First run: the writes have the shape the automaton accepts *)

Lemma inv1_step (update : string) (st : loop_state) (l : string) :
  inv1 (update ++ nl_s) st -> is_line l = true ->
  inv1 (update ++ nl_s) (loop_step update st l).
Proof.
  set (r := update ++ nl_s). intros H Hl.
  destruct st as [a s w o]. unfold inv1 in *; simpl in H.
  destruct (contains _FILE_MARKER_BEGIN l) eqn:Hb.
  - rewrite step_begin by exact Hb. unfold after_add, wr_after_add; simpl.
    destruct a, s; simpl in *; try contradiction.
    + right. split; [|reflexivity]. rewrite auto_run_app.
      destruct H as [H | [H _]]; rewrite H; apply auto_section; eauto.
    + right. exact H.
    + left. exact H.
  - destruct (contains _FILE_MARKER_END l) eqn:He.
    + rewrite step_end by assumption. unfold after_add, wr_after_add; simpl.
      destruct a, s; simpl in *; try contradiction.
      * rewrite !auto_run_app.
        destruct H as [H | [H _]]; rewrite H, auto_section by eauto;
          apply auto_end_line; assumption.
      * destruct H as [H ->]. rewrite auto_run_app, H. apply auto_end_line; assumption.
      * rewrite auto_run_app, H. apply auto_copy_line; assumption.
    + assert (Hm : has_no_marker l = true) by (unfold has_no_marker; rewrite Hb, He; reflexivity).
      rewrite step_plain by exact Hm. unfold after_add, wr_after_add; simpl.
      destruct a, s; simpl in *; try contradiction.
      * split; [|reflexivity]. rewrite auto_run_app.
        destruct H as [H | [H _]]; rewrite H; apply auto_section; eauto.
      * exact H.
      * rewrite auto_run_app, H. apply auto_copy_line; assumption.
Qed.

Lemma inv1_loop (update : string) (lines : list string) (st : loop_state) :
  Forall (fun l => is_line l = true) lines -> inv1 (update ++ nl_s) st ->
  inv1 (update ++ nl_s) (fold_left (loop_step update) lines st).
Proof.
  intros H. revert st. induction H as [|l ls Hl Hls IH]; intros st Hst; [exact Hst|].
  simpl. apply IH. apply inv1_step; assumption.
Qed.

Lemma run1_accepted (update : string) (lines : list string) :
  Forall (fun l => is_line l = true) lines ->
  exists m, auto_run (update ++ nl_s) (MCopy false) (update_writes lines update) = Some m
            /\ accepting m = true.
Proof.
  intros H. unfold update_writes.
  pose proof (inv1_loop update lines init_state H eq_refl) as Hi.
  destruct (fold_left (loop_step update) lines init_state) as [a s w o].
  unfold inv1 in Hi; simpl in *.
  assert (Hfin : forall o', auto_run (update ++ nl_s) (MCopy false) o' = Some (MCopy false) ->
            exists m, auto_run (update ++ nl_s) (MCopy false)
                        (app o' [_FILE_MARKER_BEGIN; update ++ nl_s; _FILE_MARKER_END]) = Some m
                      /\ accepting m = true).
  { intros o' Ho. exists (MCopy true). split; [|reflexivity].
    rewrite (auto_run_app _ _ o' [_FILE_MARKER_BEGIN; update ++ nl_s; _FILE_MARKER_END]), Ho.
    simpl. rewrite String.eqb_refl. reflexivity. }
  destruct w.
  - destruct a, s; try contradiction.
    + destruct Hi as [Hi | [Hi _]]; eexists; split; [exact Hi | reflexivity | exact Hi | reflexivity].
    + eexists; split; [exact (proj1 Hi) | reflexivity].
    + eexists; split; [exact Hi | reflexivity].
  - destruct a, s; try contradiction.
    + destruct Hi as [Hi | [_ Hi]]; [exact (Hfin o Hi) | discriminate].
    + destruct Hi as [_ Hi]; discriminate.
    + exact (Hfin o Hi).
Qed.

(** *** Second run: reading back an accepted file reproduces its writes *)

Lemma decode_nonempty (s : string) :
  s <> EmptyString -> decode_newlines s <> EmptyString.
Proof.
  destruct s as [|c rest]; [congruence|]. intros _. simpl.
  destruct (Ascii.eqb c cr); [destruct rest as [|c' r']; [|destruct (Ascii.eqb c' nl)]|];
    discriminate.
Qed.

Lemma begin_lines : split_lines (decode_newlines _FILE_MARKER_BEGIN) = [_FILE_MARKER_BEGIN].
Proof. reflexivity. Qed.

Lemma end_lines : split_lines (decode_newlines _FILE_MARKER_END) = [_FILE_MARKER_END].
Proof. reflexivity. Qed.

Lemma run2_chunk (update : string) (m m' : mode) (c : string) (st : loop_state) :
  clean_update update = true ->
  auto_step (update ++ nl_s) m c = Some m' -> corr m st ->
  corr m' (fold_left (loop_step update) (split_lines (decode_newlines c)) st)
  /\ app (app (written st) (owed m)) [c]
     = app (written (fold_left (loop_step update) (split_lines (decode_newlines c)) st))
           (owed m').
Proof.
  intros Hclean Hs Hc. destruct st as [a s w o].
  destruct m; simpl in Hs, Hc.
  - destruct Hc as (-> & -> & Hw).
    destruct (String.eqb c _FILE_MARKER_BEGIN) eqn:Eb.
    + apply String.eqb_eq in Eb; subst c. injection Hs as <-.
      rewrite begin_lines. cbn [fold_left]. rewrite step_begin by reflexivity.
      unfold after_add, wr_after_add; simpl.
      split; [split; reflexivity | now rewrite app_nil_r].
    + destruct (is_line c) eqn:El; [|discriminate].
      destruct (contains _FILE_MARKER_BEGIN c) eqn:Hb; [discriminate|]. injection Hs as <-.
      destruct (is_line_props c El) as (Hd & Hsp & _). rewrite Hd, Hsp. cbn [fold_left].
      rewrite step_copy by first [reflexivity | exact Hb]. simpl.
      split; [repeat split; exact Hw | now rewrite !app_nil_r].
  - destruct Hc as (-> & ->).
    destruct (String.eqb c (update ++ nl_s)) eqn:Ec; [|discriminate].
    apply String.eqb_eq in Ec; subst c. injection Hs as <-.
    unfold clean_update in Hclean.
    destruct (split_lines (decode_newlines (update ++ nl_s))) as [|l ls] eqn:Esp.
    + exfalso. apply (split_nonempty _ (decode_nonempty (update ++ nl_s) ltac:(destruct update; discriminate))).
      exact Esp.
    + simpl in Hclean. apply andb_prop in Hclean as [Hl Hls].
      cbn [fold_left]. rewrite step_plain by exact Hl. unfold after_add, wr_after_add; simpl.
      rewrite loop_skip by (apply Forall_forall; apply forallb_forall; exact Hls).
      simpl. split; [repeat split | now rewrite app_nil_r, <- app_assoc].
  - destruct Hc as (-> & -> & ->).
    destruct (String.eqb c _FILE_MARKER_BEGIN) eqn:Eb.
    + apply String.eqb_eq in Eb; subst c. injection Hs as <-.
      rewrite begin_lines. cbn [fold_left]. rewrite step_begin by reflexivity.
      unfold after_add, wr_after_add; simpl.
      split; [split; reflexivity | now rewrite app_nil_r].
    + destruct (is_line c) eqn:El; [|discriminate].
      destruct (contains _FILE_MARKER_END c) eqn:He; [|discriminate].
      destruct (contains _FILE_MARKER_BEGIN c) eqn:Hb; [discriminate|]. injection Hs as <-.
      destruct (is_line_props c El) as (Hd & Hsp & _). rewrite Hd, Hsp. cbn [fold_left].
      rewrite step_end by assumption. unfold after_add, wr_after_add; simpl.
      split; [repeat split | now rewrite !app_nil_r].
Qed.

Lemma run2 (update : string) (cs : list string) :
  clean_update update = true ->
  forall m m' st, auto_run (update ++ nl_s) m cs = Some m' -> corr m st ->
  let st' := fold_left (loop_step update)
               (flat_map (fun c => split_lines (decode_newlines c)) cs) st in
  corr m' st' /\ app (app (written st) (owed m)) cs = app (written st') (owed m').
Proof.
  intros Hclean. induction cs as [|c cs IH]; intros m m' st Hrun Hc.
  - simpl in *. injection Hrun as <-. split; [exact Hc | now rewrite app_nil_r].
  - simpl in Hrun. destruct (auto_step (update ++ nl_s) m c) as [m1|] eqn:Es; [|discriminate].
    simpl. rewrite fold_left_app.
    destruct (run2_chunk update m m1 c st Hclean Es Hc) as [Hc1 Heq1].
    destruct (IH m1 m' _ Hrun Hc1) as [Hc' Heq']. split; [exact Hc'|].
    rewrite <- Heq'. rewrite <- Heq1. now rewrite <- !app_assoc.
Qed.

Lemma input_text_no_cr (existing : option string) : no_char cr (input_text existing) = true.
Proof. destruct existing; [apply decode_no_cr | reflexivity]. Qed.

Lemma flat_map_lines (xs : list string) :
  Forall (fun l => is_line l = true) xs ->
  flat_map (fun c => split_lines (decode_newlines c)) xs = xs.
Proof.
  induction 1 as [|l ls Hl Hls IH]; [reflexivity|].
  simpl. destruct (is_line_props l Hl) as (-> & -> & _). simpl. now rewrite IH.
Qed.

Lemma filter_none (m : string) (xs : list string) :
  Forall (fun l => contains m l = false) xs -> filter (contains m) xs = [].
Proof. induction 1 as [|l ls Hl Hls IH]; [reflexivity|]. simpl. now rewrite Hl. Qed.

Lemma no_marker_begin (xs : list string) :
  Forall (fun l => has_no_marker l = true) xs ->
  Forall (fun l => contains _FILE_MARKER_BEGIN l = false) xs.
Proof.
  apply Forall_impl. intros l H. unfold has_no_marker in H.
  apply andb_prop in H as [H _]. now apply negb_true_iff.
Qed.

Lemma no_marker_end (xs : list string) :
  Forall (fun l => has_no_marker l = true) xs ->
  Forall (fun l => contains _FILE_MARKER_END l = false) xs.
Proof.
  apply Forall_impl. intros l H. unfold has_no_marker in H.
  apply andb_prop in H as [_ H]. now apply negb_true_iff.
Qed.

Lemma clean_lines (update : string) :
  clean_update update = true ->
  Forall (fun l => has_no_marker l = true) (split_lines (decode_newlines (update ++ nl_s))).
Proof. intros H. apply Forall_forall. apply forallb_forall. exact H. Qed.

Lemma input_lines_are_lines (existing : option string) :
  terminated (input_text existing) = true ->
  Forall (fun l => is_line l = true) (split_lines (input_text existing)).
Proof. intros H. apply lines_are_lines; [apply input_text_no_cr | exact H]. Qed.

(** Counting marker lines of a file made of complete lines and the section. *)
Lemma count_chunks (marker : string) (cs : list string) :
  Forall (fun c => terminated c = true) cs ->
  count_marker_lines marker (join cs)
  = length (filter (contains marker)
              (flat_map (fun c => split_lines (decode_newlines c)) cs)).
Proof. intros H. unfold count_marker_lines. now rewrite split_decode_join. Qed.

Lemma Forall_lines_terminated (xs : list string) :
  Forall (fun l => is_line l = true) xs -> Forall (fun c => terminated c = true) xs.
Proof. apply Forall_impl. intros l H. apply (is_line_props l H). Qed.

Lemma slength_app (a b : string) : String.length (a ++ b) = String.length a + String.length b.
Proof. induction a as [|c a IH]; simpl; [reflexivity|]. now rewrite IH. Qed.

(** ** A last line without a newline *)

Lemma terminated_cons (c : ascii) (y : string) :
  y <> EmptyString -> terminated (String c y) = terminated y.
Proof. destruct y; [congruence | reflexivity]. Qed.

Lemma lines_unterminated (t : string) :
  no_char cr t = true -> terminated t = false ->
  exists ls0 x, split_lines t = app ls0 [x] /\ Forall (fun l => is_line l = true) ls0
                /\ x <> EmptyString /\ no_char nl x = true /\ no_char cr x = true.
Proof.
  induction t as [|c rest IH]; intros Hcr Ht; [discriminate|].
  simpl in Hcr. apply andb_prop in Hcr as [Hc Hcr]. apply negb_true_iff in Hc.
  destruct rest as [|c' r'].
  - exists [], (String c EmptyString). unfold terminated in Ht. simpl in Ht.
    simpl. rewrite Ht. split; [reflexivity|]. split; [constructor|]. split; [discriminate|].
    split; simpl; rewrite ?Ht, ?Hc; reflexivity.
  - rewrite terminated_cons in Ht by discriminate.
    destruct (IH Hcr Ht) as (ls0 & x & Hs & Hl & Hx & Hxn & Hxc).
    change (split_lines (String c (String c' r')))
      with (let ls := split_lines (String c' r') in
            if Ascii.eqb c nl then String c EmptyString :: ls
            else match ls with [] => [String c EmptyString] | l :: ls' => String c l :: ls' end).
    cbv zeta. rewrite Hs. destruct (Ascii.eqb c nl) eqn:En.
    + exists (String c EmptyString :: ls0), x. split; [reflexivity|].
      split; [constructor; [exact En | exact Hl]|]. auto.
    + destruct ls0 as [|l ls0'].
      * exists [], (String c x). split; [reflexivity|]. split; [constructor|].
        split; [discriminate|]. split; simpl; rewrite ?En, ?Hxn, ?Hc, ?Hxc; reflexivity.
      * exists (String c l :: ls0'), x. inversion Hl as [|? ? Hl0 Hls]; subst.
        split; [reflexivity|]. split; [|auto]. constructor; [|exact Hls].
        destruct l as [|a l']; [discriminate|].
        change (negb (Ascii.eqb c nl) && negb (Ascii.eqb c cr) && is_line (String a l') = true).
        now rewrite En, Hc, Hl0.
Qed.

Lemma single_line (x : string) :
  x <> EmptyString -> no_char nl x = true -> no_char cr x = true ->
  decode_newlines x = x /\ split_lines x = [x].
Proof.
  induction x as [|c rest IH]; intros Hx Hn Hc; [congruence|].
  simpl in Hn, Hc. apply andb_prop in Hn as [Hn1 Hn]. apply andb_prop in Hc as [Hc1 Hc].
  apply negb_true_iff in Hn1, Hc1.
  destruct rest as [|c' r'].
  - split; simpl; [now rewrite Hc1 | now rewrite Hn1].
  - destruct (IH ltac:(discriminate) Hn Hc) as [Hd Hs]. split.
    + rewrite decode_cons_other by exact Hc1. now rewrite Hd.
    + change (split_lines (String c (String c' r')))
        with (let ls := split_lines (String c' r') in
              if Ascii.eqb c nl then String c EmptyString :: ls
              else match ls with [] => [String c EmptyString] | l :: ls' => String c l :: ls' end).
      cbv zeta. now rewrite Hs, Hn1.
Qed.

Lemma is_line_app (x b : string) :
  no_char nl x = true -> no_char cr x = true -> is_line b = true -> is_line (x ++ b) = true.
Proof.
  induction x as [|c x' IH]; intros Hn Hc Hb; [exact Hb|].
  simpl in Hn, Hc. apply andb_prop in Hn as [Hn1 Hn]. apply andb_prop in Hc as [Hc1 Hc].
  specialize (IH Hn Hc Hb). cbn [append].
  destruct (x' ++ b) as [|a y] eqn:E; [discriminate|].
  change (negb (Ascii.eqb c nl) && negb (Ascii.eqb c cr) && is_line (String a y) = true).
  now rewrite Hn1, Hc1, IH.
Qed.

Lemma terminated_app (a b : string) :
  terminated b = true -> b <> EmptyString -> terminated (a ++ b) = true.
Proof.
  induction a as [|c a' IH]; intros Hb Hne; [exact Hb|].
  cbn [append]. rewrite terminated_cons; [now apply IH|].
  destruct a'; [exact Hne | discriminate].
Qed.

Lemma terminated_join (cs : list string) :
  Forall (fun c => terminated c = true) cs -> terminated (join cs) = true.
Proof.
  induction 1 as [|c cs Hc Hcs IH]; [reflexivity|]. cbn [join].
  destruct (join cs) as [|a r] eqn:E; [now rewrite sapp_nil_r|].
  apply terminated_app; [exact IH | discriminate].
Qed.

Lemma count_chunks_last (marker : string) (cs : list string) (x : string) :
  Forall (fun c => terminated c = true) cs ->
  x <> EmptyString -> no_char nl x = true -> no_char cr x = true ->
  count_marker_lines marker (join (app cs [x]))
  = length (filter (contains marker)
              (flat_map (fun c => split_lines (decode_newlines c)) cs))
    + (if contains marker x then 1 else 0).
Proof.
  intros Hcs Hx Hn Hc. unfold count_marker_lines. rewrite join_app. cbn [join].
  rewrite sapp_nil_r. pose proof (terminated_join cs Hcs) as Ht.
  rewrite decode_app by exact Ht.
  rewrite split_app by (apply decode_terminated; exact Ht).
  rewrite split_decode_join by exact Hcs.
  destruct (single_line x Hx Hn Hc) as [-> ->].
  rewrite filter_app, length_app. cbn [filter]. now destruct (contains marker x).
Qed.

Lemma prefix_line_line (m l : string) :
  is_line m = true -> is_line l = true -> prefix m l = true -> m = l.
Proof.
  revert l. induction m as [|a m' IH]; intros l Hm Hl Hp; [discriminate|].
  destruct l as [|b l']; [discriminate|].
  simpl in Hp. destruct (ascii_dec a b) as [<-|]; [|discriminate].
  destruct m' as [|a' m''].
  - simpl in Hm. apply Ascii.eqb_eq in Hm. subst a.
    destruct l' as [|b' l'']; [reflexivity|].
    change (negb (Ascii.eqb nl nl) && negb (Ascii.eqb nl cr) && is_line (String b' l'') = true)
      in Hl. rewrite Ascii.eqb_refl in Hl. discriminate.
  - change (negb (Ascii.eqb a nl) && negb (Ascii.eqb a cr) && is_line (String a' m'') = true)
      in Hm.
    apply andb_prop in Hm as [_ Hm].
    destruct l' as [|b' l'']; [discriminate|].
    change (negb (Ascii.eqb a nl) && negb (Ascii.eqb a cr) && is_line (String b' l'') = true)
      in Hl.
    apply andb_prop in Hl as [_ Hl].
    f_equal. apply IH; assumption.
Qed.

(** A line [m] found in the line [x ++ b], with [x] free of line breaks,
    is found in [b] or is longer than [b]. *)
Lemma contains_line_app (m x b : string) :
  is_line m = true -> is_line b = true -> no_char nl x = true -> no_char cr x = true ->
  contains m (x ++ b) = true -> contains m b = true \/ String.length b < String.length m.
Proof.
  intros Hm Hb. induction x as [|c x' IH]; intros Hn Hc H; [left; exact H|].
  simpl in Hn, Hc. apply andb_prop in Hn as [Hn1 Hn]. apply andb_prop in Hc as [Hc1 Hc].
  cbn [append] in H. rewrite contains_unfold in H. apply orb_true_iff in H as [H|H].
  - right. assert (Hl : is_line (String c x' ++ b) = true).
    { apply is_line_app; [simpl; now rewrite Hn1 | simpl; now rewrite Hc1 | exact Hb]. }
    rewrite (prefix_line_line m _ Hm Hl H). rewrite slength_app. simpl. lia.
  - exact (IH Hn Hc H).
Qed.

(** ** Claims on [_update_file] *)

(** C1 (counterexample): updating twice with the same text is not always the
    same as updating once. With a replacement text that is the begin marker
    without its newline, a second run adds two more begin markers; with the
    file ["a"] (no final newline), the first run glues the begin marker to
    ["a"] and the second run drops that line. *)
Lemma C1_update_file_not_idempotent :
  _update_file (Some (_update_file None begin_text)) begin_text
    <> _update_file None begin_text
  /\ _update_file (Some (_update_file (Some "a") "x")) "x" <> _update_file (Some "a") "x".
Proof. split; apply String.eqb_neq; vm_compute; reflexivity. Qed.

(** C1 (amended): when the replacement text, read back with its newline,
    contains no marker, and the file is missing or its text as read is empty
    or ends with a newline, a second update with the same text leaves the
    file byte-identical to the first. *)
Theorem update_file_idempotent (existing : option string) (update : string) :
  clean_update update = true -> terminated (input_text existing) = true ->
  _update_file (Some (_update_file existing update)) update = _update_file existing update.
Proof.
  intros Hclean Hterm.
  set (out1 := update_writes (split_lines (input_text existing)) update).
  destruct (run1_accepted update _ (input_lines_are_lines existing Hterm)) as (m & Hrun & Hacc).
  fold out1 in Hrun.
  assert (Hall : Forall (fun c => terminated c = true) out1)
    by exact (auto_run_terminated _ _ _ _ (terminated_app_nl update) Hrun).
  change (_update_file existing update) with (join out1).
  unfold _update_file. cbn [input_text].
  rewrite (split_decode_join out1 Hall).
  destruct (run2 update out1 Hclean (MCopy false) m init_state Hrun
              ltac:(repeat split; discriminate)) as [Hc Heq].
  simpl in Heq. unfold update_writes.
  destruct m as [[|]| |]; simpl in Hacc; try discriminate; simpl in Hc, Heq.
  - destruct Hc as (_ & _ & Hw). rewrite (Hw eq_refl). rewrite app_nil_r in Heq.
    rewrite <- Heq. reflexivity.
  - destruct Hc as (_ & _ & Hw). rewrite Hw. rewrite app_nil_r in Heq.
    rewrite <- Heq. reflexivity.
Qed.

Lemma update_file_idempotent_witness :
  clean_update "x" = true /\ terminated (input_text (Some ("a" ++ nl_s))) = true
  /\ _update_file (Some (_update_file (Some ("a" ++ nl_s)) "x")) "x"
     = _update_file (Some ("a" ++ nl_s)) "x".
Proof.
  split; [reflexivity|]. split; [reflexivity|].
  apply update_file_idempotent; reflexivity.
Defined.

(** C2 (counterexample): the output does not always have exactly one line
    with each marker: a begin marker with no end marker after it gives an
    output with no end-marker line, and a stray end-marker line gives two. *)
Lemma C2_update_file_marker_count :
  count_marker_lines _FILE_MARKER_END
    (_update_file (Some (_FILE_MARKER_BEGIN ++ "old" ++ nl_s)) "new") = 0
  /\ count_marker_lines _FILE_MARKER_END (_update_file (Some _FILE_MARKER_END) "new") = 2.
Proof. split; vm_compute; reflexivity. Qed.

Lemma single_section_terminated (existing : option string) (update : string) :
  clean_update update = true -> terminated (input_text existing) = true ->
  (Forall (fun l => has_no_marker l = true) (split_lines (input_text existing))
   \/ exists pre b mid e post,
        split_lines (input_text existing) = app pre (b :: app mid (e :: post))
        /\ Forall (fun l => has_no_marker l = true) pre
        /\ contains _FILE_MARKER_BEGIN b = true
        /\ Forall (fun l => has_no_marker l = true) mid
        /\ contains _FILE_MARKER_END e = true /\ contains _FILE_MARKER_BEGIN e = false
        /\ Forall (fun l => has_no_marker l = true) post) ->
  count_marker_lines _FILE_MARKER_BEGIN (_update_file existing update) = 1
  /\ count_marker_lines _FILE_MARKER_END (_update_file existing update) = 1.
Proof.
  intros Hclean Hterm Hshape.
  pose proof (input_lines_are_lines existing Hterm) as Hlines.
  pose proof (clean_lines update Hclean) as HR.
  set (RL := split_lines (decode_newlines (update ++ nl_s))) in HR.
  unfold _update_file.
  destruct Hshape as [Hnone | (pre & b & mid & e & post & Hsp & Hpre & Hb & Hmid & He & Heb & Hpost)].
  - rewrite writes_no_begin by exact (no_marker_begin _ Hnone).
    set (ls := split_lines (input_text existing)) in *.
    assert (Hall : Forall (fun c => terminated c = true)
                     (app ls [_FILE_MARKER_BEGIN; update ++ nl_s; _FILE_MARKER_END])).
    { apply Forall_app; split; [exact (Forall_lines_terminated _ Hlines)|].
      repeat constructor. apply terminated_app_nl. }
    rewrite !count_chunks by exact Hall.
    rewrite flat_map_app, flat_map_lines by exact Hlines. cbn [flat_map].
    rewrite begin_lines, end_lines. fold RL.
    rewrite !filter_app, !length_app.
    rewrite (filter_none _ ls) by exact (no_marker_begin _ Hnone).
    rewrite (filter_none _ RL) by exact (no_marker_begin _ HR).
    rewrite (filter_none _ ls) by exact (no_marker_end _ Hnone).
    rewrite (filter_none _ RL) by exact (no_marker_end _ HR).
    split; reflexivity.
  - rewrite Hsp in Hlines |- *.
    rewrite writes_section by first [assumption | exact (no_marker_begin _ Hpre)
                                     | exact (no_marker_begin _ Hpost)].
    apply Forall_app in Hlines as [Hlpre Hlrest].
    inversion Hlrest as [|? ? Hlb Hlrest']; subst.
    apply Forall_app in Hlrest' as [_ Hlrest''].
    inversion Hlrest'' as [|? ? Hle Hlpost]; subst.
    assert (Hall : Forall (fun c => terminated c = true)
                     (app pre (_FILE_MARKER_BEGIN :: (update ++ nl_s) :: e :: post))).
    { apply Forall_app; split; [exact (Forall_lines_terminated _ Hlpre)|].
      constructor; [reflexivity|]. constructor; [apply terminated_app_nl|].
      constructor; [apply (is_line_props e Hle)|]. exact (Forall_lines_terminated _ Hlpost). }
    rewrite !count_chunks by exact Hall.
    rewrite flat_map_app, flat_map_lines by exact Hlpre. cbn [flat_map].
    rewrite begin_lines. fold RL.
    destruct (is_line_props e Hle) as (-> & -> & _).
    rewrite flat_map_lines by exact Hlpost.
    rewrite !filter_app, !length_app.
    rewrite (filter_none _ pre) by exact (no_marker_begin _ Hpre).
    rewrite (filter_none _ RL) by exact (no_marker_begin _ HR).
    rewrite (filter_none _ post) by exact (no_marker_begin _ Hpost).
    rewrite (filter_none _ pre) by exact (no_marker_end _ Hpre).
    rewrite (filter_none _ RL) by exact (no_marker_end _ HR).
    rewrite (filter_none _ post) by exact (no_marker_end _ Hpost).
    cbn [filter]. rewrite Heb, He. split; reflexivity.
Qed.

(** C2 (amended): when the replacement text, read back, contains no marker,
    and the lines of the file as read contain either no marker at all or
    exactly one section (a begin-marker line, marker-free lines, an
    end-marker line, and no other marker line), the output has exactly one
    line with the begin marker and one with the end marker; whether or not
    the file ends with a newline. *)
Theorem update_file_single_section (existing : option string) (update : string) :
  clean_update update = true ->
  (Forall (fun l => has_no_marker l = true) (split_lines (input_text existing))
   \/ exists pre b mid e post,
        split_lines (input_text existing) = app pre (b :: app mid (e :: post))
        /\ Forall (fun l => has_no_marker l = true) pre
        /\ contains _FILE_MARKER_BEGIN b = true
        /\ Forall (fun l => has_no_marker l = true) mid
        /\ contains _FILE_MARKER_END e = true /\ contains _FILE_MARKER_BEGIN e = false
        /\ Forall (fun l => has_no_marker l = true) post) ->
  count_marker_lines _FILE_MARKER_BEGIN (_update_file existing update) = 1
  /\ count_marker_lines _FILE_MARKER_END (_update_file existing update) = 1.
Proof.
  intros Hclean Hshape.
  destruct (terminated (input_text existing)) eqn:Hterm;
    [exact (single_section_terminated existing update Hclean Hterm Hshape)|].
  destruct (lines_unterminated _ (input_text_no_cr existing) Hterm)
    as (ls0 & x & Hsp0 & Hls0 & Hx & Hxn & Hxc).
  pose proof (clean_lines update Hclean) as HR.
  set (RL := split_lines (decode_newlines (update ++ nl_s))) in HR.
  assert (HxE : contains _FILE_MARKER_END x = false)
    by (apply (contains_no_char nl); [reflexivity | exact Hxn]).
  assert (HxB : contains _FILE_MARKER_BEGIN x = false)
    by (apply (contains_no_char nl); [reflexivity | exact Hxn]).
  unfold _update_file.
  destruct Hshape as [Hnone | (pre & b & mid & e & post & Hsp & Hpre & Hb & Hmid & He & Heb & Hpost)].
  - rewrite writes_no_begin by exact (no_marker_begin _ Hnone).
    rewrite Hsp0 in Hnone |- *. apply Forall_app in Hnone as [Hn0 _].
    replace (join (app (app ls0 [x]) [_FILE_MARKER_BEGIN; update ++ nl_s; _FILE_MARKER_END]))
      with (join (app ls0 [x ++ _FILE_MARKER_BEGIN; update ++ nl_s; _FILE_MARKER_END]))
      by (rewrite <- app_assoc, !join_app; cbn [join]; now rewrite ?sapp_nil_r, !sapp_assoc).
    assert (HxBl : is_line (x ++ _FILE_MARKER_BEGIN) = true)
      by (apply is_line_app; [exact Hxn | exact Hxc | reflexivity]).
    assert (Hall : Forall (fun c => terminated c = true)
                     (app ls0 [x ++ _FILE_MARKER_BEGIN; update ++ nl_s; _FILE_MARKER_END])).
    { apply Forall_app; split; [exact (Forall_lines_terminated _ Hls0)|].
      constructor; [apply (is_line_props _ HxBl)|].
      repeat constructor. apply terminated_app_nl. }
    rewrite !count_chunks by exact Hall.
    rewrite flat_map_app, flat_map_lines by exact Hls0. cbn [flat_map].
    destruct (is_line_props _ HxBl) as (-> & -> & _).
    rewrite end_lines. fold RL.
    assert (HBx : contains _FILE_MARKER_BEGIN (x ++ _FILE_MARKER_BEGIN) = true).
    { rewrite <- (sapp_nil_r _FILE_MARKER_BEGIN) at 2. apply contains_middle. }
    assert (HEx : contains _FILE_MARKER_END (x ++ _FILE_MARKER_BEGIN) = false).
    { destruct (contains _FILE_MARKER_END (x ++ _FILE_MARKER_BEGIN)) eqn:E; [|reflexivity].
      destruct (contains_line_app _ _ _ end_is_line begin_is_line Hxn Hxc E) as [H|H].
      - rewrite end_not_in_begin in H. discriminate.
      - vm_compute in H. lia. }
    rewrite !filter_app, !length_app.
    rewrite (filter_none _ ls0) by exact (no_marker_begin _ Hn0).
    rewrite (filter_none _ RL) by exact (no_marker_begin _ HR).
    rewrite (filter_none _ ls0) by exact (no_marker_end _ Hn0).
    rewrite (filter_none _ RL) by exact (no_marker_end _ HR).
    cbn [filter]. rewrite HBx, HEx, begin_not_in_end, end_in_end. split; reflexivity.
  - rewrite Hsp0 in Hsp.
    destruct post as [|p ps] using rev_ind.
    + exfalso.
      assert (Hsp' : app ls0 [x] = app (app pre (b :: mid)) [e])
        by (rewrite Hsp; repeat (rewrite <- app_assoc; cbn [app]); reflexivity).
      apply app_inj_tail in Hsp' as [_ <-]. congruence.
    + assert (Hsp' : app ls0 [x] = app (app pre (b :: app mid (e :: ps))) [p])
        by (rewrite Hsp; repeat (rewrite <- app_assoc; cbn [app]); reflexivity).
      apply app_inj_tail in Hsp' as [Hls <-].
      rewrite Hsp0, Hls.
      apply Forall_app in Hpost as [Hps _].
      replace (app (app pre (b :: app mid (e :: ps))) [x])
        with (app pre (b :: app mid (e :: app ps [x])))
        by (repeat (rewrite <- app_assoc; cbn [app]); reflexivity).
      rewrite writes_section by first [assumption | exact (no_marker_begin _ Hpre)
                                       | apply Forall_app; split;
                                           [exact (no_marker_begin _ Hps)
                                           | constructor; [exact HxB | constructor]]].
      rewrite Hls in Hls0.
      apply Forall_app in Hls0 as [Hlpre Hlrest].
      inversion Hlrest as [|? ? Hlb Hlrest']; subst.
      apply Forall_app in Hlrest' as [_ Hlrest''].
      inversion Hlrest'' as [|? ? Hle Hlps]; subst.
      replace (app pre (_FILE_MARKER_BEGIN :: (update ++ nl_s) :: e :: app ps [x]))
        with (app (app pre (_FILE_MARKER_BEGIN :: (update ++ nl_s) :: e :: ps)) [x])
        by (now rewrite <- app_assoc).
      assert (Hall : Forall (fun c => terminated c = true)
                       (app pre (_FILE_MARKER_BEGIN :: (update ++ nl_s) :: e :: ps))).
      { apply Forall_app; split; [exact (Forall_lines_terminated _ Hlpre)|].
        constructor; [reflexivity|]. constructor; [apply terminated_app_nl|].
        constructor; [apply (is_line_props e Hle)|]. exact (Forall_lines_terminated _ Hlps). }
      rewrite !count_chunks_last by assumption.
      rewrite flat_map_app, flat_map_lines by exact Hlpre. cbn [flat_map].
      rewrite begin_lines. fold RL.
      destruct (is_line_props e Hle) as (-> & -> & _).
      rewrite flat_map_lines by exact Hlps.
      rewrite HxB, HxE.
      rewrite !filter_app, !length_app.
      rewrite (filter_none _ pre) by exact (no_marker_begin _ Hpre).
      rewrite (filter_none _ RL) by exact (no_marker_begin _ HR).
      rewrite (filter_none _ ps) by exact (no_marker_begin _ Hps).
      rewrite (filter_none _ pre) by exact (no_marker_end _ Hpre).
      rewrite (filter_none _ RL) by exact (no_marker_end _ HR).
      rewrite (filter_none _ ps) by exact (no_marker_end _ Hps).
      cbn [filter]. rewrite Heb, He. split; reflexivity.
Qed.

Lemma update_file_single_section_witness :
  count_marker_lines _FILE_MARKER_BEGIN
    (_update_file (Some ("a" ++ nl_s ++ _FILE_MARKER_BEGIN ++ "old" ++ nl_s
                         ++ _FILE_MARKER_END ++ "b")) "new") = 1
  /\ count_marker_lines _FILE_MARKER_END
    (_update_file (Some ("a" ++ nl_s ++ _FILE_MARKER_BEGIN ++ "old" ++ nl_s
                         ++ _FILE_MARKER_END ++ "b")) "new") = 1.
Proof.
  apply update_file_single_section; [reflexivity|].
  right. exists ["a" ++ nl_s], _FILE_MARKER_BEGIN, ["old" ++ nl_s], _FILE_MARKER_END, ["b"].
  repeat split; repeat constructor.
Defined.

Lemma update_file_section_general (existing : option string) (update : string)
    (pre : list string) (b : string) (mid : list string) (e : string) (post : list string) :
  split_lines (input_text existing) = app pre (b :: app mid (e :: post)) ->
  Forall (fun l => contains _FILE_MARKER_BEGIN l = false) pre ->
  contains _FILE_MARKER_BEGIN b = true ->
  Forall (fun l => has_no_marker l = true) mid ->
  contains _FILE_MARKER_END e = true -> contains _FILE_MARKER_BEGIN e = false ->
  Forall (fun l => contains _FILE_MARKER_BEGIN l = false) post ->
  _update_file existing update
  = join pre ++ _FILE_MARKER_BEGIN ++ update ++ nl_s ++ e ++ join post.
Proof.
  intros Hsp Hpre Hb Hmid He Heb Hpost. unfold _update_file. rewrite Hsp.
  rewrite writes_section by assumption. rewrite join_app. cbn [join].
  now rewrite <- sapp_assoc.
Qed.

Lemma update_file_no_begin_general (existing : option string) (update : string) :
  Forall (fun l => contains _FILE_MARKER_BEGIN l = false) (split_lines (input_text existing)) ->
  _update_file existing update
  = input_text existing ++ _FILE_MARKER_BEGIN ++ update ++ nl_s ++ _FILE_MARKER_END.
Proof.
  intros H. unfold _update_file. rewrite writes_no_begin by exact H.
  rewrite join_app, join_split. cbn [join]. now rewrite sapp_nil_r, <- sapp_assoc.
Qed.

(** C3 (counterexample): lines outside any delimited section are not always
    kept as they were. After a begin-marker line that no end-marker line
    follows, the line ["b"] is dropped; and a ["\r\n"] line ending is
    rewritten as ["\n"] since the file is read in text mode. *)
Lemma C3_update_file_drops_lines :
  _update_file (Some ("a" ++ nl_s ++ _FILE_MARKER_BEGIN ++ "b" ++ nl_s)) "x"
    = "a" ++ nl_s ++ _FILE_MARKER_BEGIN ++ "x" ++ nl_s
  /\ contains ("b" ++ nl_s)
       (_update_file (Some ("a" ++ nl_s ++ _FILE_MARKER_BEGIN ++ "b" ++ nl_s)) "x") = false
  /\ _update_file (Some ("a" ++ String cr nl_s)) "x"
     = "a" ++ nl_s ++ _FILE_MARKER_BEGIN ++ "x" ++ nl_s ++ _FILE_MARKER_END.
Proof. repeat split; vm_compute; reflexivity. Qed.

(** C3 (amended): on the lines as the program reads them (text mode),
    (1) with no begin-marker line the output starts with the text as read;
    (2) with one section (begin-marker line, marker-free body, end-marker
    line) and no other begin-marker line, the lines before the begin-marker
    line and from the end-marker line on are kept verbatim and in order;
    (3) marker-free lines after a first begin-marker line with no end-marker
    line after it are dropped; (4) more generally, no line after any
    begin-marker line [b] with no end-marker line after it is copied: the
    output is what the loop had written once it read [b], followed only by
    begin markers, copies of the replacement text with its newline and end
    markers. *)
Theorem update_file_preserves_outside (existing : option string) (update : string) :
  (Forall (fun l => contains _FILE_MARKER_BEGIN l = false) (split_lines (input_text existing)) ->
   _update_file existing update
   = input_text existing ++ _FILE_MARKER_BEGIN ++ update ++ nl_s ++ _FILE_MARKER_END)
  /\ (forall pre b mid e post,
        split_lines (input_text existing) = app pre (b :: app mid (e :: post)) ->
        Forall (fun l => contains _FILE_MARKER_BEGIN l = false) pre ->
        contains _FILE_MARKER_BEGIN b = true ->
        Forall (fun l => has_no_marker l = true) mid ->
        contains _FILE_MARKER_END e = true -> contains _FILE_MARKER_BEGIN e = false ->
        Forall (fun l => contains _FILE_MARKER_BEGIN l = false) post ->
        _update_file existing update
        = join pre ++ _FILE_MARKER_BEGIN ++ update ++ nl_s ++ e ++ join post)
  /\ (forall pre b rest,
        split_lines (input_text existing) = app pre (b :: rest) ->
        Forall (fun l => contains _FILE_MARKER_BEGIN l = false) pre ->
        contains _FILE_MARKER_BEGIN b = true ->
        rest <> [] -> Forall (fun l => has_no_marker l = true) rest ->
        _update_file existing update = join pre ++ _FILE_MARKER_BEGIN ++ update ++ nl_s)
  /\ (forall pre b rest,
        split_lines (input_text existing) = app pre (b :: rest) ->
        contains _FILE_MARKER_BEGIN b = true ->
        Forall (fun l => contains _FILE_MARKER_END l = false) rest ->
        exists w,
          _update_file existing update
          = join (written (fold_left (loop_step update) (app pre [b]) init_state))
            ++ join w
          /\ Forall (fun c => c = _FILE_MARKER_BEGIN \/ c = update ++ nl_s
                              \/ c = _FILE_MARKER_END) w).
Proof.
  split; [apply update_file_no_begin_general|]. split; [|split].
  - intros pre b mid e post. apply update_file_section_general.
  - intros pre b rest Hsp Hpre Hb Hne Hrest. unfold _update_file. rewrite Hsp.
    rewrite writes_unclosed by assumption. rewrite join_app. cbn [join].
    now rewrite sapp_nil_r.
  - intros pre b rest Hsp Hb Hrest. unfold _update_file. rewrite Hsp.
    destruct (writes_unclosed_any update pre b rest Hb Hrest) as [w [Hw Hf]].
    exists w. rewrite Hw, join_app. split; [reflexivity | exact Hf].
Qed.

Lemma update_file_preserves_outside_witness :
  _update_file (Some ("a" ++ nl_s ++ _FILE_MARKER_BEGIN ++ "old" ++ nl_s
                      ++ _FILE_MARKER_END ++ "b" ++ nl_s)) "new"
  = join ["a" ++ nl_s] ++ _FILE_MARKER_BEGIN ++ "new" ++ nl_s ++ _FILE_MARKER_END
    ++ join ["b" ++ nl_s]
  /\ exists w,
    _update_file (Some ("a" ++ nl_s ++ _FILE_MARKER_BEGIN ++ _FILE_MARKER_END
                        ++ _FILE_MARKER_BEGIN ++ "b" ++ nl_s)) "new"
    = join (written (fold_left (loop_step "new")
                       (app ["a" ++ nl_s; _FILE_MARKER_BEGIN; _FILE_MARKER_END]
                            [_FILE_MARKER_BEGIN]) init_state)) ++ join w
    /\ Forall (fun c => c = _FILE_MARKER_BEGIN \/ c = "new" ++ nl_s
                        \/ c = _FILE_MARKER_END) w.
Proof.
  split.
  - apply (proj1 (proj2 (update_file_preserves_outside
             (Some ("a" ++ nl_s ++ _FILE_MARKER_BEGIN ++ "old" ++ nl_s
                    ++ _FILE_MARKER_END ++ "b" ++ nl_s)) "new"))
             ["a" ++ nl_s] _FILE_MARKER_BEGIN ["old" ++ nl_s] _FILE_MARKER_END ["b" ++ nl_s]);
      first [reflexivity | repeat constructor].
  - apply (proj2 (proj2 (proj2 (update_file_preserves_outside
             (Some ("a" ++ nl_s ++ _FILE_MARKER_BEGIN ++ _FILE_MARKER_END
                    ++ _FILE_MARKER_BEGIN ++ "b" ++ nl_s)) "new")))
             ["a" ++ nl_s; _FILE_MARKER_BEGIN; _FILE_MARKER_END] _FILE_MARKER_BEGIN
             ["b" ++ nl_s]);
      first [reflexivity | repeat constructor].
Defined.

(** C4 (counterexample): the content outside the section is not always
    left untouched. The file is read in text mode, so a line ["a\r\n"]
    before the section is written back as ["a\n"]. *)
Lemma C4_update_file_rewrites_crlf :
  _update_file (Some ("a" ++ String cr nl_s ++ _FILE_MARKER_BEGIN ++ "old" ++ nl_s
                      ++ _FILE_MARKER_END ++ "b" ++ nl_s)) "new"
  = "a" ++ nl_s ++ _FILE_MARKER_BEGIN ++ "new" ++ nl_s ++ _FILE_MARKER_END ++ "b" ++ nl_s.
Proof. vm_compute. reflexivity. Qed.

(** C4 (amended): the concrete scenario of the spec holds, and in general:
    for a file whose lines as read in text mode (CRLF and lone CR turned
    into LF) are [pre], a begin-marker line, a body [B1] without markers, an
    end-marker line [e] and [post] (no other begin-marker line), the body is
    replaced by the new text and [pre], [e] and [post] are kept as read,
    i.e. with their newlines converted. *)
Theorem update_file_replaces_body :
  _update_file (Some ("a" ++ nl_s ++ _FILE_MARKER_BEGIN ++ "old" ++ nl_s
                      ++ _FILE_MARKER_END ++ "b" ++ nl_s)) "new"
  = "a" ++ nl_s ++ _FILE_MARKER_BEGIN ++ "new" ++ nl_s ++ _FILE_MARKER_END ++ "b" ++ nl_s
  /\ forall existing update2 pre b body1 e post,
       split_lines (input_text existing) = app pre (b :: app body1 (e :: post)) ->
       Forall (fun l => contains _FILE_MARKER_BEGIN l = false) pre ->
       contains _FILE_MARKER_BEGIN b = true ->
       Forall (fun l => has_no_marker l = true) body1 ->
       contains _FILE_MARKER_END e = true -> contains _FILE_MARKER_BEGIN e = false ->
       Forall (fun l => contains _FILE_MARKER_BEGIN l = false) post ->
       _update_file existing update2
       = join pre ++ _FILE_MARKER_BEGIN ++ update2 ++ nl_s ++ e ++ join post.
Proof.
  split; [vm_compute; reflexivity|].
  intros existing update2 pre b body1 e post. apply update_file_section_general.
Qed.

Lemma update_file_replaces_body_witness :
  _update_file (Some ("x" ++ nl_s ++ _FILE_MARKER_BEGIN ++ "1" ++ nl_s ++ "2" ++ nl_s
                      ++ _FILE_MARKER_END)) "y"
  = join ["x" ++ nl_s] ++ _FILE_MARKER_BEGIN ++ "y" ++ nl_s ++ _FILE_MARKER_END ++ join [].
Proof.
  apply (proj2 update_file_replaces_body _ _ ["x" ++ nl_s] _FILE_MARKER_BEGIN
           ["1" ++ nl_s; "2" ++ nl_s] _FILE_MARKER_END []);
    first [reflexivity | repeat constructor].
Defined.

(** C5 (counterexample): the output does not start with the original
    lines. The file is read in text mode, so a line ["a\r\n"] is written
    back as ["a\n"] before the appended section. *)
Lemma C5_update_file_appends_after_decoded :
  _update_file (Some ("a" ++ String cr nl_s)) "new"
  = "a" ++ nl_s ++ _FILE_MARKER_BEGIN ++ "new" ++ nl_s ++ _FILE_MARKER_END.
Proof. vm_compute. reflexivity. Qed.

(** C5 (amended): when no line read from the file contains the begin
    marker, the output is the text as read in text mode (CRLF and lone CR
    turned into LF) followed by the begin marker, the replacement text with
    a newline and the end marker; for a missing path it is exactly that
    section; the concrete scenario of the spec holds. *)
Theorem update_file_appends_section (update : string) :
  (forall existing,
     Forall (fun l => contains _FILE_MARKER_BEGIN l = false) (split_lines (input_text existing)) ->
     _update_file existing update
     = join (split_lines (input_text existing))
       ++ _FILE_MARKER_BEGIN ++ update ++ nl_s ++ _FILE_MARKER_END)
  /\ _update_file None update = _FILE_MARKER_BEGIN ++ update ++ nl_s ++ _FILE_MARKER_END
  /\ _update_file (Some ("a" ++ nl_s ++ "b" ++ nl_s)) "new"
     = "a" ++ nl_s ++ "b" ++ nl_s ++ _FILE_MARKER_BEGIN ++ "new" ++ nl_s ++ _FILE_MARKER_END.
Proof.
  split; [|split].
  - intros existing H. rewrite join_split. apply update_file_no_begin_general. exact H.
  - apply (update_file_no_begin_general None update). constructor.
  - vm_compute. reflexivity.
Qed.

Lemma update_file_appends_section_witness :
  _update_file (Some ("a" ++ nl_s)) "x"
  = join (split_lines (input_text (Some ("a" ++ nl_s))))
    ++ _FILE_MARKER_BEGIN ++ "x" ++ nl_s ++ _FILE_MARKER_END.
Proof.
  apply (proj1 (update_file_appends_section "x") (Some ("a" ++ nl_s))).
  repeat constructor.
Defined.

(** C6 (counterexample): the begin-marker line read is not copied: a line
    with text before the marker is replaced by the bare marker constant. *)
Lemma C6_begin_line_not_copied :
  _update_file (Some ("x" ++ _FILE_MARKER_BEGIN ++ "old" ++ nl_s ++ _FILE_MARKER_END)) "new"
    = _FILE_MARKER_BEGIN ++ "new" ++ nl_s ++ _FILE_MARKER_END
  /\ contains ("x" ++ _FILE_MARKER_BEGIN)
       (_update_file (Some ("x" ++ _FILE_MARKER_BEGIN ++ "old" ++ nl_s
                            ++ _FILE_MARKER_END)) "new") = false.
Proof. split; vm_compute; reflexivity. Qed.

(** C6 (amended): for the first begin-marker line [b] (the lines [pre]
    before it hold no begin marker), followed by marker-free lines and an
    end-marker line [e] that holds no begin marker, the output starts with
    [pre], then the begin-marker constant (not [b] as read), the
    replacement text and a newline, then [e] as read; the lines between [b]
    and [e] are dropped. *)
Theorem update_file_section_layout (existing : option string) (update : string)
    (pre : list string) (b : string) (mid : list string) (e : string) (post : list string) :
  split_lines (input_text existing) = app pre (b :: app mid (e :: post)) ->
  Forall (fun l => contains _FILE_MARKER_BEGIN l = false) pre ->
  contains _FILE_MARKER_BEGIN b = true ->
  Forall (fun l => has_no_marker l = true) mid ->
  contains _FILE_MARKER_END e = true -> contains _FILE_MARKER_BEGIN e = false ->
  exists tail, _update_file existing update
               = join pre ++ _FILE_MARKER_BEGIN ++ update ++ nl_s ++ e ++ tail.
Proof.
  intros Hsp Hpre Hb Hmid He Heb. unfold _update_file. rewrite Hsp.
  destruct (writes_section_prefix update pre b mid e post Hpre Hb Hmid He Heb) as [t Ht].
  rewrite Ht. exists (join t). rewrite join_app. cbn [join]. now rewrite <- sapp_assoc.
Qed.

Lemma update_file_section_layout_witness :
  exists tail,
    _update_file (Some ("x" ++ _FILE_MARKER_BEGIN ++ "old" ++ nl_s ++ _FILE_MARKER_END)) "new"
    = join [] ++ _FILE_MARKER_BEGIN ++ "new" ++ nl_s ++ _FILE_MARKER_END ++ tail.
Proof.
  apply (update_file_section_layout _ _ [] ("x" ++ _FILE_MARKER_BEGIN) ["old" ++ nl_s]
           _FILE_MARKER_END []); first [reflexivity | repeat constructor].
Defined.

(** C10: marker lines are recognised by containment of the whole marker
    constant, newline included: any line with the marker inside it, with
    any text around, is a marker line (the loop drops it and schedules the
    section); text without a newline, such as a last line without one,
    never contains a marker; so a final unterminated begin marker is kept as
    text and a section is appended after it, and a final unterminated end
    marker is dropped as part of the section body. *)
Theorem marker_recognition (update : string) :
  (forall x y, contains _FILE_MARKER_BEGIN (x ++ _FILE_MARKER_BEGIN ++ y) = true
               /\ contains _FILE_MARKER_END (x ++ _FILE_MARKER_END ++ y) = true)
  /\ (forall st x y, loop_step update st (x ++ _FILE_MARKER_BEGIN ++ y)
                     = mk_state true true (wr_after_add st) (after_add update st))
  /\ (forall u, no_char nl u = true ->
        contains _FILE_MARKER_BEGIN u = false /\ contains _FILE_MARKER_END u = false)
  /\ _update_file (Some ("a" ++ nl_s ++ begin_text)) "x"
     = "a" ++ nl_s ++ begin_text ++ _FILE_MARKER_BEGIN ++ "x" ++ nl_s ++ _FILE_MARKER_END
  /\ _update_file (Some (_FILE_MARKER_BEGIN ++ "old" ++ nl_s ++ end_text)) "x"
     = _FILE_MARKER_BEGIN ++ "x" ++ nl_s.
Proof.
  split; [intros x y; split; apply contains_middle|].
  split; [intros st x y; apply step_begin, contains_middle|].
  split; [intros u Hu; split; apply (contains_no_char nl); first [reflexivity | exact Hu]|].
  split; vm_compute; reflexivity.
Qed.

Lemma marker_recognition_witness :
  no_char nl begin_text = true
  /\ contains _FILE_MARKER_BEGIN begin_text = false
  /\ contains _FILE_MARKER_END begin_text = false.
Proof.
  split; [reflexivity|]. apply (proj1 (proj2 (proj2 (marker_recognition "x")))). reflexivity.
Defined.

(** ** Filesystem states of one call *)

Lemma fs_set_eq (m : fs) (p : string) (v : option string) : fs_set m p v p = v.
Proof. unfold fs_set. now rewrite String.eqb_refl. Qed.

Lemma fs_set_neq (m : fs) (p q : string) (v : option string) :
  q <> p -> fs_set m p v q = m q.
Proof. intro H. unfold fs_set. now rewrite (proj2 (String.eqb_neq q p) H). Qed.

Lemma last_cons {A} (l : list A) (a d : A) : last (a :: l) d = last l a.
Proof.
  revert a d. induction l as [|b l IH]; intros a d; [reflexivity|].
  change (last (b :: l) d = last (b :: l) a). now rewrite !IH.
Qed.

Lemma write_chunks_other (m : fs) (tmp acc : string) (cs : list string) (p : string) :
  p <> tmp -> Forall (fun s => s p = m p) (write_chunks m tmp acc cs).
Proof.
  intro Hp. revert m acc. induction cs as [|c cs IH]; intros m acc; cbn [write_chunks];
    constructor.
  - now apply fs_set_neq.
  - eapply Forall_impl; [|apply IH]. intros s Hs. simpl in Hs. rewrite Hs.
    now apply fs_set_neq.
Qed.

Lemma write_chunks_tmp (m : fs) (tmp acc : string) (cs : list string) :
  m tmp = Some acc -> last_state m (write_chunks m tmp acc cs) tmp = Some (acc ++ join cs).
Proof.
  unfold last_state. revert m acc. induction cs as [|c cs IH]; intros m acc Hm.
  - cbn. now rewrite sapp_nil_r.
  - cbn [write_chunks join]. rewrite last_cons. rewrite IH by apply fs_set_eq.
    now rewrite sapp_assoc.
Qed.

(** C7 (counterexample): the target is changed before the final move in two
    ways. When the temporary file is on another filesystem, [shutil.move]
    copies it, truncating the target first: a run interrupted there leaves
    an empty target in place of ["a"]. A missing target is created empty by
    [open(path, "a+")] before anything is written to the temporary file. *)
Lemma C7_target_changed_before_move :
  In (Some "")
     (map (fun s => s "f")
        (removelast (update_file_trace (fun p => if String.eqb p "f" then Some "a" else None)
                       "f" "t" false "x")))
  /\ nth 1 (map (fun s => s "f") (update_file_trace (fun _ => None) "f" "t" true "x")) None
     = Some "".
Proof.
  split; [|vm_compute; reflexivity].
  vm_compute. repeat (first [left; reflexivity | right]).
Qed.

(** C7 (amended): for an existing target and a temporary file on the same
    filesystem (so [shutil.move] is one rename), every state of the call
    before the last one has the target's original content, and the last one
    has the new content. *)
Theorem update_file_atomic_rename (m : fs) (path tmp update orig : string) :
  m path = Some orig -> tmp <> path ->
  Forall (fun s => s path = Some orig) (removelast (update_file_trace m path tmp true update))
  /\ last_state m (update_file_trace m path tmp true update) path
     = Some (_update_file (Some orig) update).
Proof.
  intros Hp Ht. assert (Ht' : path <> tmp) by now apply not_eq_sym.
  unfold update_file_trace, move_states, last_state. cbv zeta. rewrite Hp.
  cbv beta iota.
  set (m2 := fs_set m tmp (Some "")).
  set (ws := write_chunks m2 tmp "" (update_writes (split_lines (input_text (Some orig))) update)).
  set (m3 := last ws m2).
  set (fin := fs_set (fs_set m3 path (m3 tmp)) tmp None).
  change (m :: m :: m2 :: app ws [fin]) with (app (m :: m :: m2 :: ws) [fin]).
  rewrite removelast_last, last_last. split.
  - assert (Hm2 : m2 path = Some orig) by (unfold m2; now rewrite fs_set_neq).
    constructor; [exact Hp|]. constructor; [exact Hp|]. constructor; [exact Hm2|].
    eapply Forall_impl; [|apply write_chunks_other, Ht']. intros s Hs. simpl in Hs.
    now rewrite Hs.
  - unfold fin. rewrite fs_set_neq by exact Ht'. rewrite fs_set_eq. unfold m3, ws.
    apply write_chunks_tmp. apply fs_set_eq.
Qed.

Lemma update_file_atomic_rename_witness :
  Forall (fun s => s "f" = Some "a")
    (removelast (update_file_trace (fun p => if String.eqb p "f" then Some "a" else None)
                   "f" "t" true "x"))
  /\ last_state (fun p => if String.eqb p "f" then Some "a" else None)
       (update_file_trace (fun p => if String.eqb p "f" then Some "a" else None) "f" "t" true "x") "f"
     = Some (_update_file (Some "a") "x").
Proof.
  apply update_file_atomic_rename; [reflexivity | discriminate].
Defined.

(** ** Lemmas on [_get_url] and [_download] *)

Lemma get_url_unfold (self : KleafProjectSetter) (rf : string) (fmt : list fmt_piece) :
  url_fmt self = Some fmt ->
  _get_url self rf
  = match format fmt (url_kwargs (opt_val (build_id self)) self rf) with
    | Err e => Err e
    | Ok url =>
        match format fmt (url_kwargs (VStr _FAKE_BUILD_ID) self rf) with
        | Err e => Err e
        | Ok fake =>
            if negb (str_truthy (build_id self)) && negb (String.eqb url fake)
            then Ok None else Ok (Some url)
        end
    end.
Proof. intro H. unfold _get_url. now rewrite H. Qed.

(** A format string that does not name [build_id] formats the same whatever
    [build_id] is bound to. *)
Lemma format_build_id_irrelevant (fmt : list fmt_piece) (a b : pyval)
    (self : KleafProjectSetter) (rf : string) :
  uses_build_id fmt = false ->
  format fmt (url_kwargs a self rf) = format fmt (url_kwargs b self rf).
Proof.
  induction fmt as [|[s|n sp] ps IH]; intro H; [reflexivity| |].
  - simpl. now rewrite IH.
  - simpl in H. apply orb_false_iff in H as [Hn Hps]. cbn [format].
    destruct (all_digits n); [reflexivity|].
    assert (E : lookup_kw n (url_kwargs a self rf) = lookup_kw n (url_kwargs b self rf)).
    { unfold url_kwargs. cbn [lookup_kw].
      replace (String.eqb "build_id" n) with false; [reflexivity|].
      symmetry. now rewrite String.eqb_sym. }
    rewrite E, IH by exact Hps. reflexivity.
Qed.

(** C8 (failing input): with no build id and a format string that gives
    [build_id] a format spec, [format(None, ">8")] raises [TypeError] in
    [_get_url], and [_download] raises it; with the same missing build id
    and a plain [{build_id}] field it logs the error and returns. *)
Lemma C8_download_raises_without_build_id :
  _download "d" (mk_setter None None (Some [Lit "u/"; Field "build_id" ">8"])) "x" "o"
  = Raised TypeError
  /\ _download "d" (mk_setter None None (Some [Lit "u/"; Field "build_id" ""])) "x" "o"
     = Logged_error "Unable to download x file because --build_id is missing.".
Proof. split; vm_compute; reflexivity. Qed.

(** C8: what [_download] does. It logs an error and returns, running no
    subprocess, when [url_fmt] is unset or empty, and when both formattings
    of [_get_url] succeed and give a URL that depends on the missing build
    id, or an empty URL; an error raised by [_get_url] propagates; otherwise
    it runs [init_download.py] on the URL. *)
Theorem download_degraded_continue (d : string) (self : KleafProjectSetter) (rf out : string) :
  (fmt_truthy (url_fmt self) = false -> exists msg, _download d self rf out = Logged_error msg)
  /\ (forall fmt url fake, url_fmt self = Some fmt -> fmt <> [] ->
        format fmt (url_kwargs (opt_val (build_id self)) self rf) = Ok url ->
        format fmt (url_kwargs (VStr _FAKE_BUILD_ID) self rf) = Ok fake ->
        (str_truthy (build_id self) = false /\ url <> fake) \/ url = "" ->
        exists msg, _download d self rf out = Logged_error msg)
  /\ (forall e, fmt_truthy (url_fmt self) = true -> _get_url self rf = Err e ->
        _download d self rf out = Raised e)
  /\ (forall u, fmt_truthy (url_fmt self) = true -> _get_url self rf = Ok (Some u) -> u <> "" ->
        _download d self rf out = Ran_subprocess ["python3"; d ++ "/init_download.py"; u; out]).
Proof.
  unfold _download. split; [|split; [|split]].
  - intro H. rewrite H. eexists. reflexivity.
  - intros fmt url fake Hf Hne Hu Hk Hc.
    assert (Ht : fmt_truthy (url_fmt self) = true) by (rewrite Hf; now destruct fmt).
    rewrite Ht. rewrite (get_url_unfold _ _ _ Hf), Hu, Hk.
    destruct Hc as [[Hb Hneq] | He].
    + apply String.eqb_neq in Hneq. rewrite Hb, Hneq. eexists. reflexivity.
    + subst url. destruct (_ && _); eexists; reflexivity.
  - intros e Ht He. now rewrite Ht, He.
  - intros u Ht Hg Hu. rewrite Ht, Hg. cbn [negb].
    destruct u as [|c u]; [contradiction|]. reflexivity.
Qed.

Lemma download_degraded_continue_witness :
  exists msg, _download "d" (mk_setter None None (Some [Lit "u/"; Field "build_id" ""])) "x" "o"
              = Logged_error msg.
Proof.
  apply (proj1 (proj2 (download_degraded_continue "d"
           (mk_setter None None (Some [Lit "u/"; Field "build_id" ""])) "x" "o"))
           [Lit "u/"; Field "build_id" ""] "u/None" ("u/" ++ _FAKE_BUILD_ID));
    [reflexivity | discriminate | reflexivity | reflexivity |].
  left. split; [reflexivity | discriminate].
Defined.

(** C9 (failing input): with no build id and a format string that names
    [build_id] with a format spec, [_get_url] raises [TypeError] rather than
    returning [None], as it does for a plain [{build_id}] field. *)
Lemma C9_get_url_raises :
  uses_build_id [Lit "u/"; Field "build_id" ">8"] = true
  /\ _get_url (mk_setter None None (Some [Lit "u/"; Field "build_id" ">8"])) "x"
     = Err TypeError
  /\ _get_url (mk_setter None None (Some [Lit "u/"; Field "build_id" ""])) "x"
     = Ok None.
Proof. repeat split; vm_compute; reflexivity. Qed.

(** C9: what [_get_url] does. When [url_fmt] is set and both formattings succeed,
    [_get_url] returns [None] exactly when the build id is unset or empty
    and the URL differs from the one formatted with the placeholder id, and
    the URL otherwise; a format string that does not name [build_id] always
    gives the URL. *)
Theorem get_url_none_iff (self : KleafProjectSetter) (rf : string) (fmt : list fmt_piece)
    (url fake : string) :
  url_fmt self = Some fmt ->
  format fmt (url_kwargs (opt_val (build_id self)) self rf) = Ok url ->
  format fmt (url_kwargs (VStr _FAKE_BUILD_ID) self rf) = Ok fake ->
  (_get_url self rf = Ok None <-> str_truthy (build_id self) = false /\ url <> fake)
  /\ (_get_url self rf <> Ok None -> _get_url self rf = Ok (Some url))
  /\ (uses_build_id fmt = false -> _get_url self rf = Ok (Some url)).
Proof.
  intros Hf Hu Hk. rewrite (get_url_unfold _ _ _ Hf), Hu, Hk.
  split; [|split].
  - destruct (str_truthy (build_id self)) eqn:Hb; cbn [negb andb].
    + split; [discriminate | intros [H _]; discriminate].
    + destruct (String.eqb url fake) eqn:He; cbn [negb].
      * apply String.eqb_eq in He. split; [discriminate | intros [_ H]; contradiction].
      * apply String.eqb_neq in He. split; auto.
  - destruct (_ && _); [intro H; contradiction | reflexivity].
  - intro Hn. rewrite (format_build_id_irrelevant fmt (opt_val (build_id self))
                        (VStr _FAKE_BUILD_ID) self rf Hn) in Hu.
    rewrite Hu in Hk. injection Hk as <-. rewrite String.eqb_refl, andb_false_r.
    reflexivity.
Qed.

Lemma get_url_none_iff_witness :
  _get_url (mk_setter None None (Some [Lit "u/"; Field "build_id" ""])) "x" = Ok None
  <-> str_truthy None = false /\ "u/None" <> "u/" ++ _FAKE_BUILD_ID.
Proof.
  apply (get_url_none_iff (mk_setter None None (Some [Lit "u/"; Field "build_id" ""])) "x"
           [Lit "u/"; Field "build_id" ""] "u/None" ("u/" ++ _FAKE_BUILD_ID));
    reflexivity.
Defined.

(** ** Further properties: [quote] *)

Lemma quote_cons (c : ascii) (rest : string) :
  quote (String c rest) = qpiece c ++ quote rest.
Proof. reflexivity. Qed.

Ltac all_chars c := destruct c as [[] [] [] [] [] [] [] []].

Lemma str_forallb_app (f : ascii -> bool) (a b : string) :
  str_forallb f (a ++ b) = str_forallb f a && str_forallb f b.
Proof. induction a as [|c a IH]; simpl; [reflexivity|]. now rewrite IH, andb_assoc. Qed.

Lemma str_forallb_no_char (f : ascii -> bool) (x : ascii) (s : string) :
  f x = false -> str_forallb f s = true -> no_char x s = true.
Proof.
  intros Hx. induction s as [|c s IH]; simpl; [reflexivity|].
  intros H. apply andb_prop in H as [Hc Hs]. rewrite IH by exact Hs.
  destruct (Ascii.eqb c x) eqn:E; [|reflexivity].
  apply Ascii.eqb_eq in E. subst. congruence.
Qed.

(** A property of bytes checked on all 256 of them. *)
Lemma byte_check (f : Z -> bool) :
  forallb (fun n => f (Z.of_nat n)) (seq 0 256) = true ->
  forall b, (0 <= b < 256)%Z -> f b = true.
Proof.
  intros H b Hb. rewrite forallb_forall in H.
  rewrite <- (Z2Nat.id b) by lia. apply H. apply in_seq. lia.
Qed.

Lemma piece_ok_bytes : forall b, (0 <= b < 256)%Z -> piece_ok b = true.
Proof. apply byte_check. vm_compute. reflexivity. Qed.

Lemma quote_byte_out : forall b, (0 <= b < 256)%Z ->
  str_forallb quote_out_char (quote_byte b) = true.
Proof.
  apply (byte_check (fun b => str_forallb quote_out_char (quote_byte b))).
  vm_compute. reflexivity.
Qed.

Lemma unpct_piece (b : Z) (rest : string) :
  piece_ok b = true -> unpct (quote_byte b ++ rest) = b :: unpct rest.
Proof.
  unfold piece_ok.
  destruct (quote_byte b) as [|c [|h1 [|h2 [|x y]]]]; intros H; try discriminate H.
  - apply andb_prop in H as [H1 H2]. apply negb_true_iff in H1.
    apply Z.eqb_eq in H2. cbn [append unpct]. now rewrite H1, H2.
  - apply andb_prop in H as [H1 H2]. cbn [append unpct]. rewrite H1.
    destruct (hex_val h1), (hex_val h2); try discriminate H2.
    apply Z.eqb_eq in H2. now rewrite H2.
Qed.

Ltac some_inj H :=
  match type of H with
  | Some ?x = Some ?y =>
      let E := fresh in assert (E : y = x) by (injection H; auto); clear H; subst y
  end.

Ltac zlia := Z.div_mod_to_equations; lia.

Ltac fbytes := repeat (apply Forall_cons; [zlia|]); apply Forall_nil.

Lemma encode_cp_bytes (c : Z) (bs : list Z) :
  utf8_encode_cp c = Some bs -> Forall (fun b => 0 <= b < 256)%Z bs.
Proof.
  unfold utf8_encode_cp. intros H.
  destruct (Z.ltb_spec c 0); [discriminate|].
  destruct (Z.ltb_spec c 128); [some_inj H; fbytes|].
  destruct (Z.ltb_spec c 2048); [some_inj H; fbytes|].
  destruct (Z.ltb_spec c 65536).
  { destruct ((55296 <=? c) && (c <=? 57343))%Z; [discriminate|].
    some_inj H; fbytes. }
  destruct (Z.ltb_spec c 1114112); [some_inj H; fbytes|discriminate].
Qed.

Lemma encode_bytes (s bs : list Z) :
  utf8_encode s = Some bs -> Forall (fun b => 0 <= b < 256)%Z bs.
Proof.
  revert bs. induction s as [|c s IH]; intros bs H; cbn [utf8_encode] in H.
  - injection H as <-. constructor.
  - destruct (utf8_encode_cp c) as [b|] eqn:E1; [|discriminate].
    destruct (utf8_encode s) as [r|] eqn:E2; [|discriminate].
    injection H as <-. apply Forall_app. split; [exact (encode_cp_bytes c b E1) | now apply IH].
Qed.

Lemma unpct_join (bs : list Z) :
  Forall (fun b => 0 <= b < 256)%Z bs -> unpct (join (map quote_byte bs)) = bs.
Proof.
  induction 1 as [|b bs Hb _ IH]; [reflexivity|].
  cbn [map join]. rewrite unpct_piece by (apply piece_ok_bytes; exact Hb). now rewrite IH.
Qed.

Ltac zcases :=
  repeat match goal with
         | |- context [(?a <? ?b)%Z] => destruct (Z.ltb_spec a b); try zlia
         end.

Lemma decode_cp (c : Z) (bs rest : list Z) :
  utf8_encode_cp c = Some bs -> utf8_decode (app bs rest) = c :: utf8_decode rest.
Proof.
  unfold utf8_encode_cp. intros H.
  destruct (Z.ltb_spec c 0); [discriminate|].
  destruct (Z.ltb_spec c 128).
  { some_inj H. cbn [app utf8_decode]. zcases. reflexivity. }
  destruct (Z.ltb_spec c 2048).
  { some_inj H. cbn [app utf8_decode]. zcases. f_equal. zlia. }
  destruct (Z.ltb_spec c 65536).
  { destruct ((55296 <=? c) && (c <=? 57343))%Z; [discriminate|].
    some_inj H. cbn [app utf8_decode]. zcases. f_equal. zlia. }
  destruct (Z.ltb_spec c 1114112); [|discriminate].
  some_inj H. cbn [app utf8_decode]. zcases. f_equal. zlia.
Qed.

Lemma decode_encode (s bs : list Z) : utf8_encode s = Some bs -> utf8_decode bs = s.
Proof.
  revert bs. induction s as [|c s IH]; intros bs H; cbn [utf8_encode] in H.
  - injection H as <-. reflexivity.
  - destruct (utf8_encode_cp c) as [b|] eqn:E1; [|discriminate].
    destruct (utf8_encode s) as [r|] eqn:E2; [|discriminate].
    injection H as <-. rewrite (decode_cp c b r E1). f_equal. now apply IH.
Qed.

Lemma safe_byte_range (b : Z) : safe_byte b = true -> (0 <= b < 128)%Z.
Proof.
  unfold safe_byte. intros H.
  repeat rewrite ?orb_true_iff, ?andb_true_iff, ?Z.leb_le, ?Z.eqb_eq in H. lia.
Qed.

Lemma safe_byte_high (b : Z) : (128 <= b)%Z -> safe_byte b = false.
Proof.
  intros Hb. destruct (safe_byte b) eqn:E; [|reflexivity].
  apply safe_byte_range in E. lia.
Qed.

Lemma encode_cp_safe (c : Z) : safe_byte c = true -> utf8_encode_cp c = Some [c].
Proof.
  intros H. apply safe_byte_range in H. unfold utf8_encode_cp.
  destruct (Z.ltb_spec c 0); [lia|]. destruct (Z.ltb_spec c 128); [reflexivity|lia].
Qed.

Lemma quote_byte_length (b : Z) :
  String.length (quote_byte b) = if safe_byte b then 1 else 3.
Proof. unfold quote_byte, percent_byte. destruct (safe_byte b); reflexivity. Qed.

(** The first byte of a code point's encoding is safe exactly when the
    code point is. *)
Lemma encode_cp_head (c : Z) (bs : list Z) :
  utf8_encode_cp c = Some bs ->
  exists b0 rest, bs = b0 :: rest /\ safe_byte b0 = safe_byte c.
Proof.
  unfold utf8_encode_cp. intros H.
  destruct (Z.ltb_spec c 0); [discriminate|].
  destruct (Z.ltb_spec c 128); [some_inj H; eauto|].
  rewrite (safe_byte_high c) by lia.
  destruct (Z.ltb_spec c 2048).
  { some_inj H. eexists _, _. split; [reflexivity|]. apply safe_byte_high. zlia. }
  destruct (Z.ltb_spec c 65536).
  { destruct ((55296 <=? c) && (c <=? 57343))%Z; [discriminate|].
    some_inj H. eexists _, _. split; [reflexivity|]. apply safe_byte_high. zlia. }
  destruct (Z.ltb_spec c 1114112); [|discriminate].
  some_inj H. eexists _, _. split; [reflexivity|]. apply safe_byte_high. zlia.
Qed.

Lemma quote_cp_length (s bs : list Z) :
  utf8_encode s = Some bs ->
  length s + (if forallb safe_byte s then 0 else 2)
  <= String.length (join (map quote_byte bs)).
Proof.
  revert bs. induction s as [|c s IH]; intros bs H; cbn [utf8_encode] in H.
  - injection H as <-. simpl. lia.
  - destruct (utf8_encode_cp c) as [b|] eqn:E1; [|discriminate].
    destruct (utf8_encode s) as [r|] eqn:E2; [|discriminate].
    injection H as <-. specialize (IH r eq_refl).
    destruct (encode_cp_head c b E1) as [b0 [rest [-> Hs]]].
    rewrite map_app, join_app, slength_app. cbn [map join forallb length].
    rewrite slength_app, quote_byte_length, Hs.
    destruct (safe_byte c), (forallb safe_byte s); simpl in *; lia.
Qed.

Lemma codes_length (q : string) : length (codes q) = String.length q.
Proof.
  induction q as [|c q IH]; [reflexivity|].
  change (codes (String c q)) with (code_of c :: codes q). simpl. now rewrite IH.
Qed.

Lemma code_of_byte (b : Z) : (0 <= b < 256)%Z -> code_of (ascii_of_nat (Z.to_nat b)) = b.
Proof. intros Hb. unfold code_of. rewrite nat_ascii_embedding by lia. lia. Qed.



(** [quote] on a string of code points below 256, one character each, is
    [quote_cp] on its code points. *)
Lemma cp_char (c : ascii) :
  utf8_encode_cp (code_of c) = Some (map Z.of_nat (utf8_bytes c))
  /\ join (map quote_byte (map Z.of_nat (utf8_bytes c))) = qpiece c.
Proof. all_chars c; split; vm_compute; reflexivity. Qed.

Lemma quote_cp_latin1 (s : string) : quote_cp (codes s) = Ok (quote s).
Proof.
  assert (H : exists bs, utf8_encode (codes s) = Some bs /\ join (map quote_byte bs) = quote s).
  { induction s as [|c s [bs [Eb Jb]]]; [exists []; split; reflexivity|].
    destruct (cp_char c) as [E1 E2].
    exists (app (map Z.of_nat (utf8_bytes c)) bs).
    change (codes (String c s)) with (code_of c :: codes s).
    cbn [utf8_encode]. rewrite E1, Eb. split; [reflexivity|].
    rewrite map_app, join_app, E2, Jb. reflexivity. }
  destruct H as [bs [Eb Jb]]. unfold quote_cp. now rewrite Eb, Jb.
Qed.

(** The filename part of the URL, [urllib.parse.quote(remote_filename,
    safe="")], holds only ASCII letters, digits, [_.-~], ["%"] and
    upper-case hexadecimal digits, whatever code points the filename holds;
    in particular it holds no ["/"]. *)
Theorem quote_cp_output_chars (s : list Z) (q : string) :
  quote_cp s = Ok q -> str_forallb quote_out_char q = true /\ no_char "/" q = true.
Proof.
  unfold quote_cp. destruct (utf8_encode s) as [bs|] eqn:E; [|discriminate].
  intros Hq. injection Hq as <-.
  assert (H : str_forallb quote_out_char (join (map quote_byte bs)) = true).
  { pose proof (encode_bytes s bs E) as Hb. clear E.
    induction Hb as [|b bs Hb _ IH]; [reflexivity|].
    cbn [map join]. rewrite str_forallb_app, quote_byte_out by exact Hb. exact IH. }
  split; [exact H|]. apply (str_forallb_no_char quote_out_char); [reflexivity | exact H].
Qed.

Lemma quote_cp_output_chars_witness :
  str_forallb quote_out_char "%E4%B8%AD%2Fa" = true /\ no_char "/" "%E4%B8%AD%2Fa" = true.
Proof. apply (quote_cp_output_chars [20013%Z; 47%Z; 97%Z]). vm_compute. reflexivity. Defined.

(** [quote] returns the filename unchanged exactly when every code point
    of it is an ASCII letter, an ASCII digit or one of [_.-~]. *)
Theorem quote_cp_identity_iff (s : list Z) :
  (exists q, quote_cp s = Ok q /\ codes q = s) <-> forallb safe_byte s = true.
Proof.
  split.
  - intros [q [Hq Hc]]. destruct (forallb safe_byte s) eqn:E; [reflexivity|].
    unfold quote_cp in Hq. destruct (utf8_encode s) as [bs|] eqn:Eb; [|discriminate].
    injection Hq as <-. pose proof (quote_cp_length s bs Eb) as Hl. rewrite E in Hl.
    apply (f_equal (@length Z)) in Hc. rewrite codes_length in Hc. lia.
  - induction s as [|c s IH]; intros H.
    + exists EmptyString. split; reflexivity.
    + cbn [forallb] in H. apply andb_prop in H as [Hc Hs].
      destruct (IH Hs) as [q [Hq Hcq]].
      exists (String (ascii_of_nat (Z.to_nat c)) q).
      unfold quote_cp in *. cbn [utf8_encode]. rewrite encode_cp_safe by exact Hc.
      destruct (utf8_encode s) as [bs|]; [|discriminate]. injection Hq as Hq.
      split.
      * cbn [app map join]. rewrite Hq. unfold quote_byte at 1. now rewrite Hc.
      * change (codes (String (ascii_of_nat (Z.to_nat c)) q))
          with (code_of (ascii_of_nat (Z.to_nat c)) :: codes q).
        rewrite code_of_byte, Hcq; [reflexivity|].
        apply safe_byte_range in Hc. lia.
Qed.

(** [quote] is injective: two different remote filenames never give the
    same filename part in the URL. *)
Theorem quote_cp_injective (a b : list Z) (q : string) :
  quote_cp a = Ok q -> quote_cp b = Ok q -> a = b.
Proof.
  unfold quote_cp.
  destruct (utf8_encode a) as [ba|] eqn:Ea; [|discriminate].
  destruct (utf8_encode b) as [bb|] eqn:Eb; [|discriminate].
  intros H1 H2. injection H1 as H1. injection H2 as H2.
  rewrite <- (decode_encode a ba Ea), <- (decode_encode b bb Eb).
  rewrite <- (unpct_join ba (encode_bytes a ba Ea)), <- (unpct_join bb (encode_bytes b bb Eb)).
  now rewrite H1, H2.
Qed.

Lemma quote_cp_injective_witness : [20013%Z; 47%Z] = [20013%Z; 47%Z].
Proof. apply (quote_cp_injective _ _ "%E4%B8%AD%2F"); vm_compute; reflexivity. Defined.



(** ** Further properties: [_update_file] *)

Lemma split_first_begin (ls : list string) :
  exists pre rest, ls = app pre rest
    /\ Forall (fun l => contains _FILE_MARKER_BEGIN l = false) pre
    /\ match rest with [] => True | b :: _ => contains _FILE_MARKER_BEGIN b = true end.
Proof.
  induction ls as [|l ls (pre & rest & E & Hpre & Hr)].
  - exists [], []. repeat split; constructor.
  - destruct (contains _FILE_MARKER_BEGIN l) eqn:Hl.
    + exists [], (l :: ls). repeat split; [constructor | exact Hl].
    + exists (l :: pre), rest. subst. repeat split; [constructor; assumption | exact Hr].
Qed.

Lemma writes_first_begin (update : string) (pre : list string) (b : string) (rs : list string) :
  Forall (fun l => contains _FILE_MARKER_BEGIN l = false) pre ->
  contains _FILE_MARKER_BEGIN b = true ->
  exists t, update_writes (app pre (b :: rs)) update
            = app pre (_FILE_MARKER_BEGIN :: (update ++ nl_s) :: t).
Proof.
  intros Hpre Hb. unfold update_writes, init_state.
  rewrite fold_left_app, loop_copy by exact Hpre. rewrite app_nil_l. cbn [fold_left].
  rewrite step_begin by exact Hb. unfold after_add, wr_after_add. cbn [add_content written update_written].
  destruct rs as [|r rs].
  - exists [_FILE_MARKER_END]. reflexivity.
  - cbn [fold_left].
    set (st1 := loop_step update (mk_state true true false pre) r).
    assert (H1 : exists t1, written st1 = app pre (_FILE_MARKER_BEGIN :: (update ++ nl_s) :: t1)).
    { unfold st1, loop_step. cbn [add_content written update_written skip_line].
      destruct (contains _FILE_MARKER_END r), (contains _FILE_MARKER_BEGIN r); cbn;
        first [exists []; now rewrite <- ?app_assoc | exists [r]; now rewrite <- ?app_assoc]. }
    destruct H1 as [t1 H1].
    destruct (loop_written_prefix update rs st1) as [t Ht].
    destruct (update_written _); rewrite Ht, H1.
    + exists (app t1 t). now rewrite <- app_assoc.
    + eexists. now rewrite <- !app_assoc.
Qed.

(** For every file, missing or not, the output of [_update_file] is the
    lines read before the first line holding the begin marker (all lines if
    there is none), then the begin marker, the replacement text and a
    newline, then the rest. *)
Theorem update_file_layout (existing : option string) (update : string) :
  exists pre rest tail,
    split_lines (input_text existing) = app pre rest
    /\ Forall (fun l => contains _FILE_MARKER_BEGIN l = false) pre
    /\ match rest with [] => True | b :: _ => contains _FILE_MARKER_BEGIN b = true end
    /\ _update_file existing update = join pre ++ _FILE_MARKER_BEGIN ++ update ++ nl_s ++ tail.
Proof.
  destruct (split_first_begin (split_lines (input_text existing))) as (pre & rest & E & Hpre & Hr).
  destruct rest as [|b rs].
  - exists pre, [], _FILE_MARKER_END. repeat split; [exact E | exact Hpre |].
    unfold _update_file. rewrite E.
    rewrite app_nil_r, writes_no_begin by exact Hpre. rewrite join_app. cbn [join].
    now rewrite sapp_nil_r, <- sapp_assoc.
  - destruct (writes_first_begin update pre b rs Hpre Hr) as [t Ht].
    exists pre, (b :: rs), (join t). repeat split; [exact E | exact Hpre | exact Hr |].
    unfold _update_file. rewrite E.
    rewrite Ht, join_app. cbn [join]. now rewrite <- sapp_assoc.
Qed.

Lemma last_app_gen {A} (l l' : list A) (d : A) : last (app l l') d = last l' (last l d).
Proof.
  revert d. induction l as [|a l IH]; intros d; [reflexivity|].
  cbn [app]. rewrite !last_cons. apply IH.
Qed.

(** Whichever filesystem the temporary file is on, and whether the target
    existed or not, the call ends with the target holding [_update_file] of
    its former content and the temporary file removed. *)
Theorem update_file_trace_result (m : fs) (path tmp : string) (same_device : bool)
    (update : string) :
  tmp <> path ->
  last_state m (update_file_trace m path tmp same_device update) path
    = Some (_update_file (m path) update)
  /\ last_state m (update_file_trace m path tmp same_device update) tmp = None.
Proof.
  intros Ht. assert (Ht' : path <> tmp) by now apply not_eq_sym.
  unfold update_file_trace, move_states, last_state. cbv zeta.
  set (m1 := match m path with Some _ => m | None => fs_set m path (Some "") end).
  set (m2 := fs_set m1 tmp (Some "")).
  set (ws := write_chunks m2 tmp "" _).
  assert (Htmp : last ws m2 tmp = Some (_update_file (m path) update)).
  { unfold ws. apply (write_chunks_tmp m2 tmp ""). apply fs_set_eq. }
  rewrite !last_cons, last_app_gen.
  destruct same_device; cbn [last]; split;
    rewrite ?fs_set_eq, ?fs_set_neq by exact Ht'; rewrite ?fs_set_eq; first [exact Htmp | reflexivity].
Qed.

Lemma update_file_trace_result_witness :
  last_state (fun _ => None) (update_file_trace (fun _ => None) "f" "t" false "x") "f"
    = Some (_update_file None "x")
  /\ last_state (fun _ => None) (update_file_trace (fun _ => None) "f" "t" false "x") "t" = None.
Proof. apply update_file_trace_result. discriminate. Defined.

(** ** Formatting a string with an empty format spec *)

Lemma str_format_empty (v : string) : str_format v "" = Ok v.
Proof. unfold str_format. simpl. now rewrite sapp_nil_r. Qed.

(** ** Further properties: paths, [_try_rel_workspace] and [_generate_bazelrc] *)

Lemma list_prefix_app (xs r : list string) : list_prefix xs (app xs r) = true.
Proof. induction xs as [|x xs IH]; simpl; [reflexivity|]. now rewrite String.eqb_refl, IH. Qed.

Lemma list_prefix_spec (xs ys : list string) :
  list_prefix xs ys = true -> ys = app xs (skipn (length xs) ys).
Proof.
  revert ys. induction xs as [|x xs IH]; intros ys H; [reflexivity|].
  destruct ys as [|y ys]; [discriminate|]. simpl in H. apply andb_prop in H as [Hx Hs].
  apply String.eqb_eq in Hx. subst. simpl. f_equal. now apply IH.
Qed.

(** For an absolute path [p] (the command line only takes absolute ones),
    [_try_rel_workspace] raises nothing, and joining its result onto the
    workspace gives [p] back; the result is relative exactly when [p] is the
    workspace or below it. *)
Theorem try_rel_workspace_roundtrip (self : ProjectLayout) (ws p : path) :
  ddk_workspace self = Some ws -> path_abs p = true ->
  exists r, (forall l, _try_rel_workspace self p l = (l, inl r))
    /\ path_join ws r = p
    /\ (path_abs r = false <-> exists rest, p = path_join ws (mk_path false rest)).
Proof.
  intros Hws Hp. unfold _try_rel_workspace. rewrite Hws. unfold relative_to.
  destruct (Bool.eqb (path_abs p) (path_abs ws) && list_prefix (path_tail ws) (path_tail p)) eqn:E.
  - apply andb_prop in E as [Ea Ep]. apply Bool.eqb_prop in Ea.
    pose proof (list_prefix_spec _ _ Ep) as Et.
    exists (mk_path false (skipn (length (path_tail ws)) (path_tail p))).
    assert (J : path_join ws (mk_path false (skipn (length (path_tail ws)) (path_tail p))) = p).
    { unfold path_join. simpl. destruct p as [a t]. simpl in *. now rewrite <- Et, <- Ea. }
    split; [reflexivity|]. split; [exact J|].
    split; [intros _; eexists; symmetry; exact J | reflexivity].
  - exists p. split; [reflexivity|]. split; [unfold path_join; now rewrite Hp|].
    split; [rewrite Hp; discriminate|].
    intros [rest Hr]. exfalso. rewrite Hr in E. unfold path_join in E. simpl in E.
    now rewrite Bool.eqb_reflx, list_prefix_app in E.
Qed.

Lemma try_rel_workspace_roundtrip_witness :
  exists r, (forall l, _try_rel_workspace (mk_layout (Some (mk_path true ["w"])) false None None)
                         (mk_path true ["w"; "k"]) l = (l, inl r))
    /\ path_join (mk_path true ["w"]) r = mk_path true ["w"; "k"]
    /\ (path_abs r = false <->
        exists rest, mk_path true ["w"; "k"] = path_join (mk_path true ["w"]) (mk_path false rest)).
Proof. apply try_rel_workspace_roundtrip; reflexivity. Defined.

Lemma no_char_app (x : ascii) (a b : string) :
  no_char x (a ++ b) = no_char x a && no_char x b.
Proof. induction a as [|c a IH]; simpl; [reflexivity|]. now rewrite IH, andb_assoc. Qed.

Lemma split_nl_line (a b : string) :
  no_char nl a = true -> split_nl (a ++ nl_s ++ b) = a :: split_nl b.
Proof.
  induction a as [|c a IH]; intros H; [reflexivity|].
  simpl in H. apply andb_prop in H as [Hc Ha]. apply negb_true_iff in Hc.
  cbn [append split_nl]. rewrite Hc, IH by exact Ha. reflexivity.
Qed.

Lemma split_nl_last (a : string) : no_char nl a = true -> split_nl a = [a].
Proof.
  induction a as [|c a IH]; intros H; [reflexivity|].
  simpl in H. apply andb_prop in H as [Hc Ha]. apply negb_true_iff in Hc.
  cbn [split_nl]. rewrite Hc, IH by exact Ha. reflexivity.
Qed.

(** [textwrap.dedent] on the f-string of [_generate_bazelrc] removes the
    twelve spaces of indentation and empties the last line, as long as the
    inserted path holds no newline. *)
Lemma dedent_bazelrc (s : string) :
  no_char nl s = true ->
  dedent (bazelrc_fstring s)
  = "common --config=internet" ++ nl_s ++ "common --registry=file://" ++ s
    ++ "/external/bazelbuild-bazel-central-registry" ++ nl_s.
Proof.
  intros Hs. unfold bazelrc_fstring.
  replace ("            common --registry=file://" ++ s
           ++ "/external/bazelbuild-bazel-central-registry" ++ nl_s ++ "            ")
    with (("            common --registry=file://" ++ s
           ++ "/external/bazelbuild-bazel-central-registry") ++ nl_s ++ "            ")
    by now rewrite !sapp_assoc.
  unfold dedent. rewrite split_nl_line by reflexivity.
  rewrite split_nl_line by (rewrite !no_char_app, Hs; reflexivity).
  rewrite split_nl_last by reflexivity.
  simpl. rewrite <- !sapp_assoc. reflexivity.
Qed.

Lemma skipn_length_app (xs r : list string) : skipn (length xs) (app xs r) = r.
Proof. induction xs as [|x xs IH]; [reflexivity|]. exact IH. Qed.

Lemma relative_to_join (ws : path) (rest : list string) :
  relative_to (path_join ws (mk_path false rest)) ws = Ok (mk_path false rest).
Proof.
  unfold relative_to, path_join. simpl.
  now rewrite Bool.eqb_reflx, list_prefix_app, skipn_length_app.
Qed.

Lemma relative_to_outside (p ws : path) :
  ~ (exists rest, p = path_join ws (mk_path false rest)) -> relative_to p ws = Err ValueError.
Proof.
  intros Hn. unfold relative_to.
  destruct (Bool.eqb (path_abs p) (path_abs ws) && list_prefix (path_tail ws) (path_tail p)) eqn:E;
    [|reflexivity].
  exfalso. apply Hn. apply andb_prop in E as [Ea Ep]. apply Bool.eqb_prop in Ea.
  exists (skipn (length (path_tail ws)) (path_tail p)).
  destruct p as [a t]. unfold path_join. simpl in *. rewrite Ea. f_equal. now apply list_prefix_spec.
Qed.

Lemma concat_slash_cons (x : string) (xs : list string) :
  String.concat "/" (x :: xs) = x ++ String.concat "" (map (fun y => "/" ++ y) xs).
Proof.
  revert x. induction xs as [|y ys IH]; intros x; [simpl; now rewrite sapp_nil_r|].
  change (String.concat "/" (x :: y :: ys)) with (x ++ "/" ++ String.concat "/" (y :: ys)).
  rewrite IH. cbn [map]. destruct ys; simpl; now rewrite ?sapp_nil_r, ?sapp_assoc.
Qed.

Lemma no_char_concat (x : ascii) (sep : string) (xs : list string) :
  no_char x sep = true -> Forall (fun y => no_char x y = true) xs ->
  no_char x (String.concat sep xs) = true.
Proof.
  intros Hs H. induction H as [|y ys Hy Hys IH]; [reflexivity|].
  destruct ys as [|z zs]; [exact Hy|].
  change (String.concat sep (y :: z :: zs)) with (y ++ sep ++ String.concat sep (z :: zs)).
  now rewrite !no_char_app, Hy, Hs, IH.
Qed.

(** [_generate_bazelrc] with a workspace and an absolute Kleaf repo whose
    components hold no newline updates [device.bazelrc] in the workspace
    with two lines: [common --config=internet] and a registry line pointing
    into the Kleaf repo, written from [%workspace%] when the repo is the
    workspace or below it, and as the absolute path otherwise. *)
Theorem generate_bazelrc_content (self : ProjectLayout) (ws kr : path) (l : list effect) :
  ddk_workspace self = Some ws -> kleaf_repo self = Some kr -> path_abs kr = true ->
  Forall (fun x => no_char nl x = true) (path_tail kr) ->
  (forall rest, kr = path_join ws (mk_path false rest) ->
     _generate_bazelrc self l
     = (app l [UpdateFile (path_join ws _DEVICE_BAZELRC)
                 ("common --config=internet" ++ nl_s ++ "common --registry=file://%workspace%"
                  ++ String.concat "" (map (fun y => "/" ++ y) rest)
                  ++ "/external/bazelbuild-bazel-central-registry" ++ nl_s)], inl tt))
  /\ (~ (exists rest, kr = path_join ws (mk_path false rest)) ->
     _generate_bazelrc self l
     = (app l [UpdateFile (path_join ws _DEVICE_BAZELRC)
                 ("common --config=internet" ++ nl_s ++ "common --registry=file:///"
                  ++ String.concat "/" (path_tail kr)
                  ++ "/external/bazelbuild-bazel-central-registry" ++ nl_s)], inl tt)).
Proof.
  intros Hws Hkr Habs Hnl. split.
  - intros rest Hr. subst kr.
    unfold _generate_bazelrc, _try_rel_workspace, bind, ret, emit.
    rewrite Hws, Hkr, relative_to_join.
    unfold path_join at 2. cbn [path_abs path_tail app].
    unfold path_str. cbn [path_abs path_tail].
    rewrite dedent_bazelrc.
    + now rewrite concat_slash_cons, <- !sapp_assoc.
    + apply no_char_concat; [reflexivity|].
      constructor; [reflexivity|].
      unfold path_join in Hnl. cbn [path_abs path_tail] in Hnl.
      now apply Forall_app in Hnl as [_ Hrest].
  - intros Hn. unfold _generate_bazelrc, _try_rel_workspace, bind, ret, emit.
    rewrite Hws, Hkr, (relative_to_outside kr ws Hn), Habs.
    unfold path_str. rewrite Habs. rewrite dedent_bazelrc.
    + now rewrite <- !sapp_assoc.
    + rewrite no_char_app. apply no_char_concat; [reflexivity | exact Hnl].
Qed.

Lemma generate_bazelrc_content_witness :
  _generate_bazelrc (mk_layout (Some (mk_path true ["w"])) false (Some (mk_path true ["w"; "k"])) None) []
  = ([UpdateFile (path_join (mk_path true ["w"]) _DEVICE_BAZELRC)
       ("common --config=internet" ++ nl_s ++ "common --registry=file://%workspace%"
        ++ String.concat "" (map (fun y => "/" ++ y) ["k"])
        ++ "/external/bazelbuild-bazel-central-registry" ++ nl_s)], inl tt).
Proof.
  apply (proj1 (generate_bazelrc_content
                  (mk_layout (Some (mk_path true ["w"])) false (Some (mk_path true ["w"; "k"])) None)
                  (mk_path true ["w"]) (mk_path true ["w"; "k"]) [] eq_refl eq_refl eq_refl
                  ltac:(repeat constructor)) ["k"]).
  reflexivity.
Defined.

(** ** Further properties: [run] *)

Lemma format_lit_cons (s : string) (ps : list fmt_piece) (kw : list (string * pyval)) :
  format (Lit s :: ps) kw = match format ps kw with Ok r => Ok (s ++ r) | Err e => Err e end.
Proof. reflexivity. Qed.

Lemma format_field_str (n : string) (ps : list fmt_piece) (kw : list (string * pyval)) (v : string) :
  all_digits n = false -> lookup_kw n kw = Some (VStr v) ->
  format (Field n "" :: ps) kw = match format ps kw with Ok r => Ok (v ++ r) | Err e => Err e end.
Proof. intros Hd Hl. cbn [format]. rewrite Hd, Hl. cbn [format_value]. now rewrite str_format_empty. Qed.

(** The two templates of [_generate_module_bazel] format without error. *)
Lemma format_kleaf_ok (v : string) :
  exists s, format _KLEAF_DEPENDENCY_TEMPLATE [("kleaf_repo_relative", VStr v)] = Ok s /\ s <> "".
Proof.
  unfold _KLEAF_DEPENDENCY_TEMPLATE.
  rewrite format_lit_cons, (format_field_str _ _ _ v), format_lit_cons by reflexivity.
  cbn [format]. eexists. split; [reflexivity|]. discriminate.
Qed.

Lemma format_prebuilts_ok (c v : string) :
  exists s, format _LOCAL_PREBUILTS_CONTENT_TEMPLATE
              [("download_configs", VStr c); ("prebuilts_dir_relative", VStr v)] = Ok s.
Proof.
  unfold _LOCAL_PREBUILTS_CONTENT_TEMPLATE.
  rewrite format_lit_cons, (format_field_str _ _ _ c), format_lit_cons,
    (format_field_str _ _ _ v), format_lit_cons by reflexivity.
  cbn [format]. eexists. reflexivity.
Qed.

Lemma keeps_ret (P : effect -> Prop) {A} (a : A) : keeps P (ret a).
Proof. intros l H. exact H. Qed.

Lemma keeps_raise (P : effect -> Prop) {A} (e : exn) : keeps P (@raise A e).
Proof. intros l H. exact H. Qed.

Lemma keeps_emit (P : effect -> Prop) (e : effect) : P e -> keeps P (emit e).
Proof. intros He l H. cbn. apply Forall_app. auto. Qed.

Lemma keeps_bind (P : effect -> Prop) {A B} (m : M A) (k : A -> M B) :
  keeps P m -> (forall a, keeps P (k a)) -> keeps P (bind m k).
Proof.
  intros Hm Hk l H. unfold bind. specialize (Hm l H).
  destruct (m l) as [l' [a|e]]; [apply Hk|]; exact Hm.
Qed.

Lemma keeps_lift (P : effect -> Prop) (r : result string) : keeps P (lift r).
Proof. destruct r; [apply keeps_ret | apply keeps_raise]. Qed.

Lemma keeps_try_rel (P : effect -> Prop) (self : ProjectLayout) (p : path) :
  keeps P (_try_rel_workspace self p).
Proof.
  unfold _try_rel_workspace. destruct (ddk_workspace self) as [ws|]; [|apply keeps_raise].
  destruct (relative_to p ws); apply keeps_ret.
Qed.

Ltac keeps_tac :=
  repeat (match goal with
          | |- keeps _ (bind _ _) => apply keeps_bind; [|intros ?]
          | |- keeps _ (ret _) => apply keeps_ret
          | |- keeps _ (raise _) => apply keeps_raise
          | |- keeps _ (lift _) => apply keeps_lift
          | |- keeps _ (_try_rel_workspace _ _) => apply keeps_try_rel
          | |- keeps _ (emit _) => apply keeps_emit
          | |- keeps _ (match ?x with _ => _ end) => destruct x eqn:?
          | |- keeps _ (if ?x then _ else _) => destruct x eqn:?
          end).

Lemma path_parent_tools (ws : path) :
  path_parent (path_join ws _TOOLS_BAZEL) = path_join ws (mk_path false ["tools"]).
Proof.
  unfold path_parent, path_join, _TOOLS_BAZEL. cbn [path_abs path_tail]. f_equal.
  now rewrite removelast_app by discriminate.
Qed.

Lemma keeps_run (read : path -> option string) (self : ProjectLayout) :
  keeps (allowed_effect self) (run read self).
Proof.
  unfold run, _run, _handle_ddk_workspace, _handle_kleaf_repo, _handle_prebuilts,
    _symlink_tools_bazel, _generate_module_bazel, _read_download_configs, _generate_bazelrc.
  keeps_tac; cbn [allowed_effect]; eauto 8.
  right; right; right. eexists. split; [eassumption|]. now rewrite path_parent_tools.
Qed.

Ltac run_unfold :=
  unfold run, _run, _handle_ddk_workspace, _handle_kleaf_repo, _handle_prebuilts,
    _symlink_tools_bazel, _generate_module_bazel, _read_download_configs, _generate_bazelrc,
    _try_rel_workspace, bind, ret, emit, raise, lift; cbn [ddk_workspace kleaf_repo prebuilts_dir].

Ltac exists_removelast :=
  lazymatch goal with
  | |- exists pre, ?L = app pre [_] /\ _ => exists (removelast L); split; reflexivity
  end.

Lemma run_read_failure_aux (read : path -> option string) (self : ProjectLayout) (ws pd : path) :
  ddk_workspace self = Some ws -> prebuilts_dir self = Some pd ->
  read (download_configs_path pd) = None ->
  (exists pre, fst (run read self []) = app pre [ReadFile (download_configs_path pd)]
               /\ update_targets pre = [])
  /\ snd (run read self []) = inr (ReadErr (download_configs_path pd)).
Proof.
  intros Hw Hp Hr. destruct self as [w lo k p]; cbn in Hw, Hp; subst w p.
  unfold download_configs_path in *. run_unfold.
  destruct k as [kr|].
  - destruct (relative_to kr ws) as [rk|ek];
    [destruct (format_kleaf_ok (path_str rk)) as [s [Es _]]
    |destruct (format_kleaf_ok (path_str kr)) as [s [Es _]]];
    (rewrite Es, Hr; cbn; split; [exists_removelast|reflexivity]).
  - rewrite Hr. cbn. split; [exists_removelast|reflexivity].
Qed.

Lemma run_success_aux (read : path -> option string) (self : ProjectLayout) :
  (forall ws pd, ddk_workspace self = Some ws -> prebuilts_dir self = Some pd ->
                 read (download_configs_path pd) <> None) ->
  snd (run read self []) = inl tt
  /\ update_targets (fst (run read self []))
     = match ddk_workspace self with
       | None => []
       | Some ws =>
           app (match kleaf_repo self, prebuilts_dir self with
                | None, None => []
                | _, _ => [path_join ws _MODULE_BAZEL_FILE] end)
               (match kleaf_repo self with Some _ => [path_join ws _DEVICE_BAZELRC] | None => [] end)
       end.
Proof.
  intros Hr. destruct self as [w lo k p]. cbn [ddk_workspace kleaf_repo prebuilts_dir] in *.
  destruct w as [ws|]; [|destruct k; destruct p; run_unfold; cbn; auto].
  unfold download_configs_path in Hr. run_unfold.
  destruct p as [pd|].
  - destruct (read (path_join pd (mk_path false ["download_configs.json"]))) as [cfg|] eqn:Ecfg;
      [|exfalso; exact (Hr ws pd eq_refl eq_refl Ecfg)].
    destruct (relative_to pd ws) as [rp|ep];
    [destruct (format_prebuilts_ok cfg (path_str rp)) as [s2 Es2]
    |destruct (format_prebuilts_ok cfg (path_str pd)) as [s2 Es2]];
    rewrite Es2;
    (destruct k as [kr|];
     [destruct (relative_to kr ws) as [rk|ek];
      [destruct (format_kleaf_ok (path_str rk)) as [s1 [Es1 N1]]
      |destruct (format_kleaf_ok (path_str kr)) as [s1 [Es1 N1]]];
      (rewrite Es1; destruct s1; [congruence|]; cbn; auto)
     |cbn; auto]).
  - destruct k as [kr|]; [|cbn; auto].
    destruct (relative_to kr ws) as [rk|ek];
    [destruct (format_kleaf_ok (path_str rk)) as [s1 [Es1 N1]]
    |destruct (format_kleaf_ok (path_str kr)) as [s1 [Es1 N1]]];
    (rewrite Es1; destruct s1; [congruence|]; cbn; auto).
Qed.

Lemma run_without_workspace_aux (read : path -> option string) (self : ProjectLayout)
    (l : list effect) :
  ddk_workspace self = None ->
  run read self l
  = (app l (match kleaf_repo self with Some kr => [Mkdir kr] | None => [] end), inl tt).
Proof.
  intros Hw. destruct self as [w lo k p]. cbn in Hw. subst w. run_unfold.
  destruct k, p; cbn; now rewrite ?app_nil_r.
Qed.


Lemma cut_at_forall (P : effect -> Prop) (fails : nat -> bool) (i : nat)
    (effs : list effect) (r : unit + exn) :
  Forall P effs -> Forall P (fst (cut_at fails i effs r)).
Proof.
  intros H. revert i. induction H as [|e es He _ IH]; intros i; [constructor|].
  cbn [cut_at]. destruct (fails i); [repeat constructor; exact He|].
  specialize (IH (S i)). destruct (cut_at fails (S i) es r) as [es' r'].
  constructor; [exact He | exact IH].
Qed.

Lemma cut_at_none (fails : nat -> bool) (i : nat) (effs : list effect) (r : unit + exn) :
  (forall j, fails j = false) -> cut_at fails i effs r = (effs, r).
Proof.
  intros H. revert i. induction effs as [|e es IH]; intros i; [reflexivity|].
  cbn [cut_at]. rewrite H, IH. reflexivity.
Qed.


Lemma run_os_no_fail (read : path -> option string) (self : ProjectLayout) (fails : nat -> bool) :
  (forall j, fails j = false) -> run_os fails read self = run read self [].
Proof.
  intros H. unfold run_os. destruct (run read self []) as [effs r]. now apply cut_at_none.
Qed.

(** Whatever the layout, the contents of [download_configs.json] and
    the operations that raise, the operations [run] starts are only:
    [mkdir(parents=True, exist_ok=True)] of the workspace, Kleaf repo and
    prebuilts directories and of [tools] in the workspace (which also
    creates their missing parent directories); unlinking [tools/bazel] in
    the workspace and making it a link to [tools/bazel] in the Kleaf repo;
    opening [download_configs.json] in the prebuilts directory; and
    [_update_file] on [MODULE.bazel] and [device.bazelrc] in the
    workspace. *)
Theorem run_os_effects_allowed (fails : nat -> bool) (read : path -> option string)
    (self : ProjectLayout) :
  Forall (allowed_effect self) (fst (run_os fails read self)).
Proof.
  unfold run_os. pose proof (keeps_run read self [] (Forall_nil _)) as H.
  destruct (run read self []) as [effs r]. now apply cut_at_forall.
Qed.

(** When no operation raises, but [download_configs.json] in the
    prebuilts directory cannot be read, [run] with a workspace stops with
    that error right after trying to read the file, before updating any
    file. *)
Theorem run_os_read_failure (fails : nat -> bool) (read : path -> option string)
    (self : ProjectLayout) (ws pd : path) :
  (forall j, fails j = false) ->
  ddk_workspace self = Some ws -> prebuilts_dir self = Some pd ->
  read (download_configs_path pd) = None ->
  (exists pre, fst (run_os fails read self) = app pre [ReadFile (download_configs_path pd)]
               /\ update_targets pre = [])
  /\ snd (run_os fails read self) = inr (ReadErr (download_configs_path pd)).
Proof.
  intros Hf Hw Hp Hr. rewrite run_os_no_fail by exact Hf.
  exact (run_read_failure_aux read self ws pd Hw Hp Hr).
Qed.

Lemma run_os_read_failure_witness :
  (exists pre, fst (run_os (fun _ => false) (fun _ => None) (mk_layout (Some (mk_path true ["w"])) false (Some (mk_path true ["w"; "k"])) (Some (mk_path true ["w"; "p"])))) = app pre [ReadFile (download_configs_path (mk_path true ["w"; "p"]))]
               /\ update_targets pre = [])
  /\ snd (run_os (fun _ => false) (fun _ => None) (mk_layout (Some (mk_path true ["w"])) false (Some (mk_path true ["w"; "k"])) (Some (mk_path true ["w"; "p"])))) = inr (ReadErr (download_configs_path (mk_path true ["w"; "p"]))).
Proof.
  exact (run_os_read_failure (fun _ => false) (fun _ => None) (mk_layout (Some (mk_path true ["w"])) false (Some (mk_path true ["w"; "k"])) (Some (mk_path true ["w"; "p"]))) (mk_path true ["w"]) (mk_path true ["w"; "p"])
           (fun _ => eq_refl) eq_refl eq_refl eq_refl).
Defined.

(** When no operation raises and [download_configs.json] can be read
    whenever [run] reads it, [run] ends without error; with a workspace it
    updates [MODULE.bazel] in it when a Kleaf repo or a prebuilts directory
    is given, then [device.bazelrc] in it when a Kleaf repo is given, and
    no other file; without a workspace it updates no file. *)
Theorem run_os_success (fails : nat -> bool) (read : path -> option string)
    (self : ProjectLayout) :
  (forall j, fails j = false) ->
  (forall ws pd, ddk_workspace self = Some ws -> prebuilts_dir self = Some pd ->
                 read (download_configs_path pd) <> None) ->
  snd (run_os fails read self) = inl tt
  /\ update_targets (fst (run_os fails read self))
     = match ddk_workspace self with
       | None => []
       | Some ws =>
           app (match kleaf_repo self, prebuilts_dir self with
                | None, None => []
                | _, _ => [path_join ws _MODULE_BAZEL_FILE] end)
               (match kleaf_repo self with Some _ => [path_join ws _DEVICE_BAZELRC] | None => [] end)
       end.
Proof.
  intros Hf Hr. rewrite run_os_no_fail by exact Hf. exact (run_success_aux read self Hr).
Qed.

Lemma run_os_success_witness :
  snd (run_os (fun _ => false) (fun _ => Some "{}") (mk_layout (Some (mk_path true ["w"])) false (Some (mk_path true ["w"; "k"])) (Some (mk_path true ["w"; "p"])))) = inl tt
  /\ update_targets (fst (run_os (fun _ => false) (fun _ => Some "{}") (mk_layout (Some (mk_path true ["w"])) false (Some (mk_path true ["w"; "k"])) (Some (mk_path true ["w"; "p"])))))
     = [path_join (mk_path true ["w"]) _MODULE_BAZEL_FILE; path_join (mk_path true ["w"]) _DEVICE_BAZELRC].
Proof.
  exact (run_os_success (fun _ => false) (fun _ => Some "{}") (mk_layout (Some (mk_path true ["w"])) false (Some (mk_path true ["w"; "k"])) (Some (mk_path true ["w"; "p"])))
           (fun _ => eq_refl) ltac:(intros ws pd _ _; discriminate)).
Defined.

(** Without a workspace, [run] starts at most one operation, creating
    the Kleaf repo directory when one is given, and ends without error
    unless that [mkdir] raises. *)
Theorem run_os_without_workspace (fails : nat -> bool) (read : path -> option string)
    (self : ProjectLayout) :
  ddk_workspace self = None ->
  run_os fails read self
  = match kleaf_repo self with
    | Some kr => ([Mkdir kr], if fails 0 then inr (OpErr (Mkdir kr)) else inl tt)
    | None => ([], inl tt)
    end.
Proof.
  intros Hw. unfold run_os. rewrite (run_without_workspace_aux read self [] Hw).
  destruct (kleaf_repo self) as [kr|]; [|reflexivity].
  cbn. destruct (fails 0); reflexivity.
Qed.

Lemma run_os_without_workspace_witness :
  run_os (fun i => Nat.eqb i 0) (fun _ => None)
    (mk_layout None false (Some (mk_path true ["k"])) (Some (mk_path true ["p"])))
  = ([Mkdir (mk_path true ["k"])], inr (OpErr (Mkdir (mk_path true ["k"])))).
Proof.
  exact (run_os_without_workspace (fun i => Nat.eqb i 0) (fun _ => None)
           (mk_layout None false (Some (mk_path true ["k"])) (Some (mk_path true ["p"]))) eq_refl).
Defined.


